(** * Mergington High School activities API: roster, query and bootstrap logic

    A shallow embedding of [src/app.py] and [src/database.py].

    The three tables of [database.py] are lists of rows in table-scan order.
    A SQLAlchemy [Session] is modelled with the three layers the code relies
    on: the committed store, the view of the open transaction (what flushed
    INSERTs and DELETEs have produced so far) and the objects that were
    [add]ed or [delete]d but not yet flushed.  [SessionLocal] is built with
    [autoflush=False], so a query reads the transaction view only and never
    sees an object that is still pending.  [close] discards whatever was not
    committed.

    Primary keys are unbounded naturals (Python integers; SQLite rowids are
    64 bits wide, a limit no run of the service reaches).  The wall-clock
    columns [created_at] and [joined_at] are left out: no operation reads
    them.  The store is the default one, SQLite ([DATABASE_URL] unset). *)

From Stdlib Require Import ZArith.
From stdpp Require Import base decidable option list strings gmap.

(** ** Rows ([database.py], the three models) *)

Module Student.
Record t := mk {
  id : nat;
  email : string;
  name : option string;
  grade : option Z;
  class_section : option string
}.
End Student.

Module Activity.
Record t := mk {
  id : nat;
  name : string;
  description : option string;
  schedule : option string;
  max_participants : Z
}.
End Activity.

Module Participation.
Record t := mk {
  id : nat;
  student_id : nat;
  activity_id : nat
}.
End Participation.

#[export] Instance student_eq_dec : EqDecision Student.t.
Proof. solve_decision. Defined.
#[export] Instance activity_eq_dec : EqDecision Activity.t.
Proof. solve_decision. Defined.
#[export] Instance participation_eq_dec : EqDecision Participation.t.
Proof. solve_decision. Defined.

(** ** The persisted store *)

(** [participations_seq] is the [sqlite_sequence] entry that
    [sqlite_autoincrement] keeps for the participations table: the largest
    rowid ever handed out. *)
Record Store := mkStore {
  students : list Student.t;
  activities : list Activity.t;
  participations : list Participation.t;
  participations_seq : nat
}.

#[export] Instance store_eq_dec : EqDecision Store.
Proof. solve_decision. Defined.

Definition empty_store : Store := mkStore [] [] [] 0.

(** ** Exceptions *)

Inductive Exn :=
| HTTPException (status_code : nat) (detail : string)
| IntegrityError.

#[export] Instance exn_eq_dec : EqDecision Exn.
Proof. solve_decision. Defined.

(** The error taxonomy of the specification, read off the status code. *)
Inductive ErrorKind := NotFound | Conflict | Fatal.

Definition error_kind (e : Exn) : ErrorKind :=
  match e with
  | HTTPException 404 _ => NotFound
  | HTTPException 400 _ => Conflict
  | _ => Fatal
  end.

(** ** INSERT and DELETE statements *)

(** Rowid of the next row of a table without AUTOINCREMENT. *)
Definition next_rowid (ids : list nat) : nat := S (max_list ids).

(** [students.email] is declared [unique=True]. *)
Definition insert_student (email : string) (st : Store) : Exn + (nat * Store) :=
  if decide (email ∈ Student.email <$> students st) then inl IntegrityError
  else
    let i := next_rowid (Student.id <$> students st) in
    inr (i, mkStore (students st ++ [Student.mk i email None None None])
                    (activities st) (participations st) (participations_seq st)).

(** [activities.name] is declared [unique=True]. *)
Definition insert_activity (name : string) (description schedule : option string)
    (max_participants : Z) (st : Store) : Exn + (nat * Store) :=
  if decide (name ∈ Activity.name <$> activities st) then inl IntegrityError
  else
    let i := next_rowid (Activity.id <$> activities st) in
    inr (i, mkStore (students st)
                    (activities st ++ [Activity.mk i name description schedule max_participants])
                    (participations st) (participations_seq st)).

(** The participations table has no uniqueness constraint besides its key;
    its rowids come from the AUTOINCREMENT sequence. *)
Definition insert_participation (student_id activity_id : nat) (st : Store)
    : Exn + (nat * Store) :=
  let i := S (participations_seq st `max` max_list (Participation.id <$> participations st)) in
  inr (i, mkStore (students st) (activities st)
                  (participations st ++ [Participation.mk i student_id activity_id]) i).

(** [DELETE FROM participations WHERE id = ?] *)
Definition delete_participation (p : Participation.t) (st : Store) : Store :=
  mkStore (students st) (activities st)
          (filter (λ q, Participation.id q ≠ Participation.id p) (participations st))
          (participations_seq st).

(** ** Sessions *)

(** A transient ORM object, as built by the model constructors before
    [db.add]: its primary key is not yet assigned. *)
Inductive Transient :=
| NewStudent (email : string)
| NewActivity (name : string) (description schedule : option string) (max_participants : Z)
| NewParticipation (student_id activity_id : nat).

Record Session := mkSession {
  committed : Store;
  txn : Store;
  sess_new : list Transient;
  sess_deleted : list Participation.t
}.

Definition SessionLocal (st : Store) : Session := mkSession st st [] [].

Definition insert_row (o : Transient) (st : Store) : Exn + (nat * Store) :=
  match o with
  | NewStudent e => insert_student e st
  | NewActivity n d s m => insert_activity n d s m st
  | NewParticipation sid aid => insert_participation sid aid st
  end.

(** Flushing the pending objects in the order they were added; the result
    lists the primary keys assigned, in that order. *)
Fixpoint flush_new (objs : list Transient) (st : Store) : Exn + (list nat * Store) :=
  match objs with
  | [] => inr ([], st)
  | o :: objs' =>
      match insert_row o st with
      | inl e => inl e
      | inr (i, st') =>
          match flush_new objs' st' with
          | inl e => inl e
          | inr (ids, st'') => inr (i :: ids, st'')
          end
      end
  end.

Definition flush_deleted (ps : list Participation.t) (st : Store) : Store :=
  foldl (λ acc p, delete_participation p acc) st ps.

(** ** The session monad: state passing with exceptions *)

Definition M (A : Type) : Type := Session → (Exn + A) * Session.

#[export] Instance session_ret : MRet M := λ A a s, (inr a, s).

#[export] Instance session_bind : MBind M := λ A B k m s,
  match m s with
  | (inl e, s') => (inl e, s')
  | (inr a, s') => k a s'
  end.

Definition raise {A} (e : Exn) : M A := λ s, (inl e, s).

(** [db.query(Model).filter(P)] is a scan of the transaction view;
    [.first()] is the head of the matching rows, [.count()] their number,
    [.all()] all of them. *)
Definition query_activity_first : M (option Activity.t) := λ s,
  (inr (head (activities (txn s))), s).

Definition query_activity_all : M (list Activity.t) := λ s,
  (inr (activities (txn s)), s).

Definition activity_by_name (n : string) (st : Store) : option Activity.t :=
  head (filter (λ a, Activity.name a = n) (activities st)).

Definition student_by_email (e : string) (st : Store) : option Student.t :=
  head (filter (λ x, Student.email x = e) (students st)).

Definition participation_of (sid aid : nat) (st : Store) : option Participation.t :=
  head (filter (λ p, Participation.student_id p = sid ∧ Participation.activity_id p = aid)
               (participations st)).

Definition participation_count (aid : nat) (st : Store) : nat :=
  length (filter (λ p, Participation.activity_id p = aid) (participations st)).

Definition query_activity_by_name (n : string) : M (option Activity.t) := λ s,
  (inr (activity_by_name n (txn s)), s).

Definition query_student_by_email (e : string) : M (option Student.t) := λ s,
  (inr (student_by_email e (txn s)), s).

Definition query_participation (sid aid : nat) : M (option Participation.t) := λ s,
  (inr (participation_of sid aid (txn s)), s).

Definition query_participation_count (aid : nat) : M nat := λ s,
  (inr (participation_count aid (txn s)), s).

Definition db_add (o : Transient) : M unit := λ s,
  (inr (), mkSession (committed s) (txn s) (sess_new s ++ [o]) (sess_deleted s)).

Definition db_delete (p : Participation.t) : M unit := λ s,
  (inr (), mkSession (committed s) (txn s) (sess_new s) (sess_deleted s ++ [p])).

(** A failing flush rolls the transaction back before it raises. *)
Definition db_flush : M (list nat) := λ s,
  match flush_new (sess_new s) (txn s) with
  | inl e => (inl e, mkSession (committed s) (committed s) [] [])
  | inr (ids, st) =>
      (inr ids, mkSession (committed s) (flush_deleted (sess_deleted s) st) [] [])
  end.

Definition db_commit : M unit :=
  db_flush ;;
  (λ s, (inr (), mkSession (txn s) (txn s) (sess_new s) (sess_deleted s))) : M unit.

Definition db_rollback (s : Session) : Session :=
  mkSession (committed s) (committed s) [] [].

(** [db.close()]: what stays is what was committed. *)
Definition db_close (s : Session) : Store := committed s.

(** [get_db]: a session for the duration of one call, closed on every exit
    path. *)
Definition get_db {A} (endpoint : M A) (st : Store) : (Exn + A) * Store :=
  let (r, db) := endpoint (SessionLocal st) in (r, db_close db).

(** ** The query service ([app.py], [get_activities]) *)

Module Info.
Record t := mk {
  description : option string;
  schedule : option string;
  max_participants : Z;
  participants : nat
}.
End Info.

(** The [for activity in activities] loop, filling the [result] dict. *)
Fixpoint get_activities_loop (acts : list Activity.t) (result : gmap string Info.t)
    : M (gmap string Info.t) :=
  match acts with
  | [] => mret result
  | activity :: acts' =>
      participant_count ← query_participation_count (Activity.id activity);
      get_activities_loop acts'
        (<[Activity.name activity :=
             Info.mk (Activity.description activity) (Activity.schedule activity)
                     (Activity.max_participants activity) participant_count]> result)
  end.

Definition get_activities : M (gmap string Info.t) :=
  acts ← query_activity_all;
  get_activities_loop acts ∅.

(** ** The roster service ([app.py]) *)

Definition signup_for_activity (activity_name email : string) : M string :=
  activity ← query_activity_by_name activity_name;
  match activity with
  | None => raise (HTTPException 404 "Activity not found")
  | Some activity =>
      student ← query_student_by_email email;
      student ← match student with
                | Some student => mret student
                | None =>
                    db_add (NewStudent email);;
                    ids ← db_flush;
                    mret (Student.mk (default 0 (last ids)) email None None None)
                end;
      existing_participation ←
        query_participation (Student.id student) (Activity.id activity);
      match existing_participation with
      | Some _ =>
          raise (HTTPException 400 "Student is already signed up for this activity")
      | None =>
          participant_count ← query_participation_count (Activity.id activity);
          if decide (Activity.max_participants activity ≤ Z.of_nat participant_count)%Z
          then raise (HTTPException 400 "Activity is full")
          else
            db_add (NewParticipation (Student.id student) (Activity.id activity));;
            db_commit;;
            mret ("Signed up " +:+ email +:+ " for " +:+ activity_name)
      end
  end.

Definition unregister_from_activity (activity_name email : string) : M string :=
  activity ← query_activity_by_name activity_name;
  match activity with
  | None => raise (HTTPException 404 "Activity not found")
  | Some activity =>
      student ← query_student_by_email email;
      match student with
      | None => raise (HTTPException 404 "Student not found")
      | Some student =>
          participation ←
            query_participation (Student.id student) (Activity.id activity);
          match participation with
          | None =>
              raise (HTTPException 400 "Student is not signed up for this activity")
          | Some participation =>
              db_delete participation;;
              db_commit;;
              mret ("Unregistered " +:+ email +:+ " from " +:+ activity_name)
          end
      end
  end.

(** The three endpoints as the HTTP layer runs them: each on a session of
    its own, obtained from [get_db]. *)
Definition listActivities (st : Store) : gmap string Info.t :=
  match get_db get_activities st with
  | (inr result, _) => result
  | (inl _, _) => ∅
  end.

Definition signup (activity_name email : string) (st : Store) : (Exn + string) * Store :=
  get_db (signup_for_activity activity_name email) st.

Definition unregister (activity_name email : string) (st : Store) : (Exn + string) * Store :=
  get_db (unregister_from_activity activity_name email) st.

(** ** The bootstrap loader ([database.py], [init_db]) *)

Definition activities_data : list Transient :=
  [ NewActivity "Chess Club"
      (Some "Learn strategies and compete in chess tournaments")
      (Some "Fridays, 3:30 PM - 5:00 PM") 12;
    NewActivity "Programming Class"
      (Some "Learn programming fundamentals and build software projects")
      (Some "Tuesdays and Thursdays, 3:30 PM - 4:30 PM") 20;
    NewActivity "Gym Class"
      (Some "Physical education and sports activities")
      (Some "Mondays, Wednesdays, Fridays, 2:00 PM - 3:00 PM") 30;
    NewActivity "Soccer Team"
      (Some "Join the school soccer team and compete in matches")
      (Some "Tuesdays and Thursdays, 4:00 PM - 5:30 PM") 22;
    NewActivity "Basketball Team"
      (Some "Practice and play basketball with the school team")
      (Some "Wednesdays and Fridays, 3:30 PM - 5:00 PM") 15;
    NewActivity "Art Club"
      (Some "Explore your creativity through painting and drawing")
      (Some "Thursdays, 3:30 PM - 5:00 PM") 15;
    NewActivity "Drama Club"
      (Some "Act, direct, and produce plays and performances")
      (Some "Mondays and Wednesdays, 4:00 PM - 5:30 PM") 20;
    NewActivity "Math Club"
      (Some "Solve challenging problems and participate in math competitions")
      (Some "Tuesdays, 3:30 PM - 4:30 PM") 10;
    NewActivity "Debate Team"
      (Some "Develop public speaking and argumentation skills")
      (Some "Fridays, 4:00 PM - 5:30 PM") 12 ].

Definition sample_participants : list (string * list string) :=
  [ ("Chess Club", ["michael@mergington.edu"; "daniel@mergington.edu"]);
    ("Programming Class", ["emma@mergington.edu"; "sophia@mergington.edu"]);
    ("Gym Class", ["john@mergington.edu"; "olivia@mergington.edu"]);
    ("Soccer Team", ["liam@mergington.edu"; "noah@mergington.edu"]);
    ("Basketball Team", ["ava@mergington.edu"; "mia@mergington.edu"]);
    ("Art Club", ["amelia@mergington.edu"; "harper@mergington.edu"]);
    ("Drama Club", ["ella@mergington.edu"; "scarlett@mergington.edu"]);
    ("Math Club", ["james@mergington.edu"; "benjamin@mergington.edu"]);
    ("Debate Team", ["charlotte@mergington.edu"; "henry@mergington.edu"]) ].

(** [for activity_data in activities_data: db.add(Activity(...))] *)
Fixpoint add_all (objs : list Transient) : M unit :=
  match objs with
  | [] => mret ()
  | o :: objs' => db_add o;; add_all objs'
  end.

(** [for email in emails]: get or create the student, add a participation. *)
Fixpoint enroll_emails (activity : Activity.t) (emails : list string) : M unit :=
  match emails with
  | [] => mret ()
  | email :: emails' =>
      student ← query_student_by_email email;
      student ← match student with
                | Some student => mret student
                | None =>
                    db_add (NewStudent email);;
                    ids ← db_flush;
                    mret (Student.mk (default 0 (last ids)) email None None None)
                end;
      db_add (NewParticipation (Student.id student) (Activity.id activity));;
      enroll_emails activity emails'
  end.

(** [for activity_name, emails in sample_participants.items()] *)
Fixpoint enroll_samples (samples : list (string * list string)) : M unit :=
  match samples with
  | [] => mret ()
  | (activity_name, emails) :: samples' =>
      activity ← query_activity_by_name activity_name;
      match activity with
      | Some activity => enroll_emails activity emails
      | None => mret ()
      end;;
      enroll_samples samples'
  end.

(** The body of the [try] block; the value is the line it prints. *)
Definition init_db_try : M string :=
  existing ← query_activity_first;
  match existing with
  | Some _ => mret "Database already initialized"
  | None =>
      add_all activities_data;;
      enroll_samples sample_participants;;
      db_commit;;
      mret "Database initialized with sample data"
  end.

(** [create_tables] creates what is absent and alters nothing: an absent
    table is an empty list here.  [except]: roll back and re-raise;
    [finally]: close. *)
Definition init_db (st : Store) : (Exn + string) * Store :=
  match init_db_try (SessionLocal st) with
  | (inl e, db) => (inl e, db_close (db_rollback db))
  | (inr line, db) => (inr line, db_close db)
  end.

Definition initialize (st : Store) : Store := (init_db st).2.

(** ** Constraints declared by the schema *)

(** Primary keys, the two [unique=True] columns and the two foreign keys of
    [participations]. *)
Definition schema_ok (st : Store) : Prop :=
  NoDup (Student.id <$> students st) ∧
  NoDup (Student.email <$> students st) ∧
  NoDup (Activity.id <$> activities st) ∧
  NoDup (Activity.name <$> activities st) ∧
  NoDup (Participation.id <$> participations st) ∧
  Forall (λ p, Participation.student_id p ∈ Student.id <$> students st ∧
               Participation.activity_id p ∈ Activity.id <$> activities st)
         (participations st).

#[export] Instance schema_ok_dec st : Decision (schema_ok st).
Proof. unfold schema_ok. apply _. Defined.

(** No activity holds more participations than its capacity. *)
Definition capacity_ok (st : Store) : Prop :=
  Forall (λ a, (Z.of_nat (participation_count (Activity.id a) st)
                ≤ Activity.max_participants a)%Z)
         (activities st).

#[export] Instance capacity_ok_dec st : Decision (capacity_ok st).
Proof. unfold capacity_ok. apply _. Defined.

(** Sequences of calls on the service. *)
Inductive Call :=
| CallInitialize
| CallList
| CallSignup (activity_name email : string)
| CallUnregister (activity_name email : string).

Definition call (c : Call) (st : Store) : Store :=
  match c with
  | CallInitialize => initialize st
  | CallList => (get_db get_activities st).2
  | CallSignup n e => (signup n e st).2
  | CallUnregister n e => (unregister n e st).2
  end.

Definition calls (cs : list Call) (st : Store) : Store :=
  foldl (λ acc c, call c acc) st cs.

(** ** Derived definitions used by the statements *)

(** The store once [flush] has written a new student row for [e]. *)
Definition with_student (e : string) (st : Store) : Store :=
  mkStore (students st ++ [Student.mk (next_rowid (Student.id <$> students st)) e None None None])
          (activities st) (participations st) (participations_seq st).

(** The store once [commit] has written a participation of [sid] in [aid]. *)
Definition with_participation (sid aid : nat) (st : Store) : Store :=
  let i := S (participations_seq st `max` max_list (Participation.id <$> participations st)) in
  mkStore (students st) (activities st)
          (participations st ++ [Participation.mk i sid aid]) i.

(** The student a signup works with: the row found, or the one it creates. *)
Definition resolve_student (e : string) (st : Store) : nat * Store :=
  match student_by_email e st with
  | Some s => (Student.id s, st)
  | None => (next_rowid (Student.id <$> students st), with_student e st)
  end.

(** The dict entry [get_activities] builds for one activity row. *)
Definition info_of (st : Store) (a : Activity.t) : Info.t :=
  Info.mk (Activity.description a) (Activity.schedule a) (Activity.max_participants a)
          (participation_count (Activity.id a) st).

(** The [result] dict after the loop has run over [acts]. *)
Definition listing (st : Store) (acts : list Activity.t) (result : gmap string Info.t)
    : gmap string Info.t :=
  foldl (λ r a, <[Activity.name a := info_of st a]> r) result acts.

(** The activities table after the bootstrap of an empty store. *)
Definition seeded_activities : list Activity.t :=
  Eval vm_compute in activities (initialize empty_store).

(** The state of a running service: the schema constraints hold and no
    activity is over capacity. *)
Definition service_ok (st : Store) : Prop := schema_ok st ∧ capacity_ok st.

(** Concrete stores on which the statements are exercised. *)
Definition seeded_store : Store := initialize empty_store.

(** One activity of capacity one, taken by the only student. *)
Definition full_store : Store :=
  mkStore [Student.mk 1 "ann@mergington.edu" None None None]
          [Activity.mk 1 "Chess Club" None (Some "Fridays") 1]
          [Participation.mk 1 1 1] 1.

(** A store where the student of the witness already exists, enrolled in
    another activity. *)
Definition math_store : Store := (signup "Math Club" "new@e.edu" seeded_store).2.

(** The (student, activity) pair a participation row stands for. *)
Definition pair_of (p : Participation.t) : nat * nat :=
  (Participation.student_id p, Participation.activity_id p).

(** No pair is enrolled twice.  The schema does not declare this (the
    table arguments of [Participation] hold no uniqueness constraint); the
    check in [signup_for_activity] is what maintains it. *)
Definition pairs_unique (st : Store) : Prop :=
  NoDup (pair_of <$> participations st).

#[export] Instance pairs_unique_dec st : Decision (pairs_unique st).
Proof. unfold pairs_unique. apply _. Defined.

(** The AUTOINCREMENT sequence is at least every rowid in the table. *)
Definition seq_ok (st : Store) : Prop :=
  Forall (λ p, Participation.id p ≤ participations_seq st) (participations st).

#[export] Instance seq_ok_dec st : Decision (seq_ok st).
Proof. unfold seq_ok. apply _. Defined.

(** The three ways [signup_for_activity] raises. *)
Definition signup_errors : list Exn :=
  [ HTTPException 404 "Activity not found";
    HTTPException 400 "Student is already signed up for this activity";
    HTTPException 400 "Activity is full" ].

(** A store with two activities and one student enrolled in the first. *)
Definition two_store : Store :=
  mkStore [Student.mk 1 "ann@mergington.edu" None None None]
          [Activity.mk 1 "Chess Club" None (Some "Fridays") 2;
           Activity.mk 2 "Art Club" (Some "Painting") None 1]
          [Participation.mk 4 1 1] 7.

(** Unfolding one layer of session operations in a goal. *)
Ltac unfold_session_once :=
  unfold mbind, mret, session_bind, session_ret, raise,
    query_activity_first, query_activity_all, query_activity_by_name,
    query_student_by_email, query_participation, query_participation_count,
    db_commit, db_flush, db_add, db_delete, db_close, db_rollback,
    SessionLocal;
  cbn.

Ltac unfold_session := repeat progress unfold_session_once.

(** * Proofs *)

(** ** Queries *)

Section queries.
Context {A : Type} (P : A → Prop) `{!∀ x, Decision (P x)}.

Lemma head_filter_Some (l : list A) (x : A) :
  head (filter P l) = Some x → ∃ l1 l2, l = l1 ++ x :: l2 ∧ P x ∧ Forall (λ y, ¬ P y) l1.
Proof.
  induction l as [|y l IH]; [done|].
  rewrite filter_cons. destruct (decide (P y)) as [Hy|Hy]; simpl.
  - intros [= ->]. by exists [], l.
  - intros Hh. destruct (IH Hh) as (l1 & l2 & -> & Hx & Hl1).
    exists (y :: l1), l2. by repeat constructor.
Qed.

Lemma head_filter_None (l : list A) :
  head (filter P l) = None ↔ Forall (λ y, ¬ P y) l.
Proof.
  induction l as [|y l IH]; [by split; [constructor|]|].
  rewrite filter_cons. destruct (decide (P y)) as [Hy|Hy]; simpl.
  - split; [done|]. by intros [? _]%Forall_cons.
  - rewrite IH, Forall_cons. tauto.
Qed.

Lemma filter_none (l : list A) : Forall (λ y, ¬ P y) l → filter P l = [].
Proof.
  induction 1 as [|y l Hy _ IH]; [done|].
  by rewrite filter_cons, decide_False.
Qed.

Lemma head_filter_app_l (l1 l2 : list A) (x : A) :
  head (filter P l1) = Some x → head (filter P (l1 ++ l2)) = Some x.
Proof. rewrite filter_app. by destruct (filter P l1). Qed.

Lemma head_filter_app_r (l1 l2 : list A) :
  head (filter P l1) = None → head (filter P (l1 ++ l2)) = head (filter P l2).
Proof.
  intros Hn%head_filter_None%filter_none. by rewrite filter_app, Hn.
Qed.
End queries.

Lemma student_by_email_None e st :
  student_by_email e st = None ↔ e ∉ Student.email <$> students st.
Proof.
  unfold student_by_email. rewrite head_filter_None, Forall_forall, list_elem_of_fmap.
  split.
  - intros Hall (s & -> & Hs). by apply (Hall s).
  - intros Hnone s Hs He. apply Hnone. by exists s.
Qed.

Lemma next_rowid_fresh (ids : list nat) : next_rowid ids ∉ ids.
Proof.
  intros H%max_list_elem_of_le. unfold next_rowid in H. lia.
Qed.

(** ** What one call does to the store *)

Lemma signup_eq n e st :
  signup n e st =
  match activity_by_name n st with
  | None => (inl (HTTPException 404 "Activity not found"), st)
  | Some a =>
      let (sid, st1) := resolve_student e st in
      match participation_of sid (Activity.id a) st with
      | Some _ =>
          (inl (HTTPException 400 "Student is already signed up for this activity"), st)
      | None =>
          if decide (Activity.max_participants a
                     ≤ Z.of_nat (participation_count (Activity.id a) st))%Z
          then (inl (HTTPException 400 "Activity is full"), st)
          else (inr ("Signed up " +:+ e +:+ " for " +:+ n),
                with_participation sid (Activity.id a) st1)
      end
  end.
Proof.
  unfold signup, get_db, signup_for_activity, resolve_student. unfold_session.
  destruct (activity_by_name n st) as [a|]; [|done]. cbn.
  destruct (student_by_email e st) as [s|] eqn:Hs; cbn.
  - destruct (participation_of _ _ st); [done|]. cbn.
    unfold participation_count. case_decide; [done|]. by unfold_session.
  - unfold insert_student. apply student_by_email_None in Hs.
    rewrite decide_False by done. cbn.
    change (participation_of ?i ?j (mkStore _ _ (participations st) _))
      with (participation_of i j st).
    destruct (participation_of _ _ st); [done|]. cbn.
    unfold participation_count; cbn. case_decide; [done|]. by unfold_session.
Qed.

Lemma unregister_eq n e st :
  unregister n e st =
  match activity_by_name n st with
  | None => (inl (HTTPException 404 "Activity not found"), st)
  | Some a =>
      match student_by_email e st with
      | None => (inl (HTTPException 404 "Student not found"), st)
      | Some s =>
          match participation_of (Student.id s) (Activity.id a) st with
          | None =>
              (inl (HTTPException 400 "Student is not signed up for this activity"), st)
          | Some p =>
              (inr ("Unregistered " +:+ e +:+ " from " +:+ n), delete_participation p st)
          end
      end
  end.
Proof.
  unfold unregister, get_db, unregister_from_activity. unfold_session.
  destruct (activity_by_name n st) as [a|]; [|done]. cbn.
  destruct (student_by_email e st) as [s|]; [|done]. cbn.
  destruct (participation_of _ _ st); [|done]. by unfold_session.
Qed.

(** ** The listing as a fold over the activities table *)

Lemma listing_cons st a acts (result : gmap string Info.t) :
  listing st (a :: acts) result
  = listing st acts (<[Activity.name a := info_of st a]> result).
Proof. done. Qed.

Lemma get_activities_loop_eq acts result s :
  get_activities_loop acts result s = (inr (listing (txn s) acts result), s).
Proof.
  revert result. induction acts as [|a acts IH]; intros result; [done|].
  cbn. unfold_session. by rewrite IH.
Qed.

Lemma get_activities_eq st :
  get_db get_activities st = (inr (listing st (activities st) ∅), st).
Proof.
  unfold get_db, get_activities. unfold_session.
  by rewrite get_activities_loop_eq.
Qed.

Lemma listActivities_eq st : listActivities st = listing st (activities st) ∅.
Proof. unfold listActivities. by rewrite get_activities_eq. Qed.

Lemma listing_lookup_notin st acts (result : gmap string Info.t) n :
  n ∉ Activity.name <$> acts → listing st acts result !! n = result !! n.
Proof.
  revert result. induction acts as [|a acts IH]; intros result Hn; [done|].
  rewrite fmap_cons, not_elem_of_cons in Hn. destruct Hn as [Hne Hn].
  rewrite listing_cons, (IH _ Hn). by rewrite lookup_insert_ne.
Qed.

Lemma listing_lookup_inv st acts (result : gmap string Info.t) n i :
  listing st acts result !! n = Some i →
  result !! n = Some i ∨ ∃ a, a ∈ acts ∧ Activity.name a = n ∧ i = info_of st a.
Proof.
  revert result. induction acts as [|a acts IH]; intros result; [by left|].
  rewrite listing_cons. intros [Hr|(b & Hb & Hn & Hi)]%IH.
  - destruct (decide (Activity.name a = n)) as [Heq|Hne].
    + rewrite Heq, lookup_insert_eq in Hr. injection Hr as <-.
      right. exists a. split; [apply list_elem_of_here|done].
    + rewrite lookup_insert_ne in Hr by done. by left.
  - right. exists b. split; [by apply list_elem_of_further|done].
Qed.

Lemma listing_lookup_nodup st acts (result : gmap string Info.t) a :
  NoDup (Activity.name <$> acts) → a ∈ acts →
  listing st acts result !! Activity.name a = Some (info_of st a).
Proof.
  revert result. induction acts as [|b acts IH]; intros result Hnd Ha.
  - by apply elem_of_nil in Ha.
  - rewrite fmap_cons in Hnd. apply NoDup_cons in Hnd as [Hb Hnd].
    apply elem_of_cons in Ha as [->|Ha]; rewrite listing_cons.
    + rewrite listing_lookup_notin by done. apply lookup_insert_eq.
    + by apply IH.
Qed.

(** The listing reads the participations table through the activity ids
    alone. *)
Lemma participation_count_activity_ids aid st st' :
  Participation.activity_id <$> participations st
    = Participation.activity_id <$> participations st' →
  participation_count aid st = participation_count aid st'.
Proof.
  unfold participation_count.
  generalize (participations st) (participations st').
  induction l as [|p l IH]; intros [|q l']; try done.
  rewrite !fmap_cons. intros [= Hpq Hl].
  rewrite !filter_cons, Hpq. case_decide; cbn; by rewrite (IH l').
Qed.

(** ** The bootstrap on an empty and on a seeded activities table *)

Lemma init_db_initialized st :
  activities st ≠ [] → init_db st = (inr "Database already initialized", st).
Proof.
  intros Hacts. unfold init_db, init_db_try.
  unfold mbind at 1. unfold session_bind at 1, query_activity_first, SessionLocal.
  cbv beta iota delta [txn].
  by destruct (activities st).
Qed.

Lemma init_db_fresh st :
  activities st = [] →
  init_db st = (inr "Database initialized with sample data",
                mkStore (students st) seeded_activities
                        (participations st) (participations_seq st)).
Proof.
  destruct st as [studs acts parts seq]. cbn. intros ->.
  vm_compute. reflexivity.
Qed.

(** The enrollment loop of [init_db] runs while the nine activities are
    still pending: with [autoflush=False] each of its queries by name finds
    nothing, so the bootstrap of an empty store commits the activities and
    neither students nor participations. *)
Lemma init_db_empty_store :
  init_db empty_store
  = (inr "Database initialized with sample data", mkStore [] seeded_activities [] 0).
Proof. by rewrite init_db_fresh. Qed.

(** ** The schema constraints are kept by every call *)

Lemma activity_by_name_Some n st a :
  activity_by_name n st = Some a → a ∈ activities st ∧ Activity.name a = n.
Proof.
  intros (l1 & l2 & Hl & Hn & _)%head_filter_Some.
  rewrite Hl. split; [|done]. apply elem_of_app. right. apply list_elem_of_here.
Qed.

Lemma student_by_email_Some e st s :
  student_by_email e st = Some s → s ∈ students st ∧ Student.email s = e.
Proof.
  intros (l1 & l2 & Hl & He & _)%head_filter_Some.
  rewrite Hl. split; [|done]. apply elem_of_app. right. apply list_elem_of_here.
Qed.

Lemma participation_rowid_fresh st :
  S (participations_seq st `max` max_list (Participation.id <$> participations st))
    ∉ Participation.id <$> participations st.
Proof. intros H%max_list_elem_of_le. lia. Qed.

Lemma NoDup_snoc_fresh {A} (l : list A) (x : A) : NoDup l → x ∉ l → NoDup (l ++ [x]).
Proof.
  intros Hl Hx. apply NoDup_app. split_and!; [done| |apply NoDup_singleton].
  intros y Hy ->%list_elem_of_singleton. done.
Qed.

Lemma schema_ok_empty : schema_ok empty_store.
Proof. unfold schema_ok. cbn. split_and!; constructor. Qed.

Lemma schema_ok_with_student e st :
  schema_ok st → e ∉ Student.email <$> students st → schema_ok (with_student e st).
Proof.
  intros (Hsid & Hse & Haid & Han & Hpid & Hfk) He.
  unfold schema_ok, with_student; cbn. rewrite !fmap_app; cbn.
  split_and!; try done.
  - apply NoDup_snoc_fresh; [done|apply next_rowid_fresh].
  - by apply NoDup_snoc_fresh.
  - eapply Forall_impl; [exact Hfk|]. cbn. intros p [Hs Ha]. split; [|done].
    apply elem_of_app. by left.
Qed.

Lemma schema_ok_with_participation sid aid st :
  schema_ok st →
  sid ∈ Student.id <$> students st → aid ∈ Activity.id <$> activities st →
  schema_ok (with_participation sid aid st).
Proof.
  intros (Hsid & Hse & Haid & Han & Hpid & Hfk) Hs Ha.
  unfold schema_ok, with_participation; cbn. rewrite !fmap_app; cbn.
  split_and!; try done.
  - apply NoDup_snoc_fresh; [done|apply participation_rowid_fresh].
  - apply Forall_app. split; [done|]. by apply Forall_singleton.
Qed.

Lemma schema_ok_delete_participation p st :
  schema_ok st → schema_ok (delete_participation p st).
Proof.
  intros (Hsid & Hse & Haid & Han & Hpid & Hfk).
  unfold schema_ok, delete_participation; cbn.
  split_and!; try done.
  - eapply sublist_NoDup; [exact Hpid|]. apply fmap_sublist, sublist_filter.
  - rewrite Forall_forall in Hfk |- *.
    intros q [_ Hq]%list_elem_of_filter. by apply Hfk.
Qed.

Lemma resolve_student_spec e st :
  schema_ok st →
  schema_ok (resolve_student e st).2 ∧
  (resolve_student e st).1 ∈ Student.id <$> students (resolve_student e st).2 ∧
  activities (resolve_student e st).2 = activities st ∧
  participations (resolve_student e st).2 = participations st.
Proof.
  intros Hok. unfold resolve_student.
  destruct (student_by_email e st) as [s|] eqn:Hs; cbn.
  - apply student_by_email_Some in Hs as [Hs _].
    split_and!; try done. by apply list_elem_of_fmap_2.
  - apply student_by_email_None in Hs.
    split_and!; try done; [by apply schema_ok_with_student|].
    rewrite fmap_app. apply elem_of_app. right. apply list_elem_of_here.
Qed.

Lemma signup_failure_store n e st exn st' :
  signup n e st = (inl exn, st') → st' = st.
Proof.
  rewrite signup_eq.
  destruct (activity_by_name n st); [|congruence].
  destruct (resolve_student e st).
  destruct (participation_of _ _ st); [congruence|].
  case_decide; congruence.
Qed.

Lemma unregister_failure_store n e st exn st' :
  unregister n e st = (inl exn, st') → st' = st.
Proof.
  rewrite unregister_eq.
  destruct (activity_by_name n st); [|congruence].
  destruct (student_by_email e st); [|congruence].
  destruct (participation_of _ _ st); congruence.
Qed.

Lemma schema_ok_signup n e st : schema_ok st → schema_ok (signup n e st).2.
Proof.
  intros Hok. rewrite signup_eq.
  destruct (activity_by_name n st) as [a|] eqn:Ha; [|done].
  apply activity_by_name_Some in Ha as [Ha _].
  destruct (resolve_student_spec e st Hok) as (Hok1 & Hsid & Hacts & _).
  destruct (resolve_student e st) as [sid st1]; cbn in *.
  destruct (participation_of _ _ st); [done|].
  case_decide; [done|]. cbn.
  apply schema_ok_with_participation; [done..|].
  rewrite Hacts. by apply list_elem_of_fmap_2.
Qed.

Lemma schema_ok_unregister n e st : schema_ok st → schema_ok (unregister n e st).2.
Proof.
  intros Hok. rewrite unregister_eq.
  destruct (activity_by_name n st); [|done].
  destruct (student_by_email e st); [|done].
  destruct (participation_of _ _ st); [|done].
  by apply schema_ok_delete_participation.
Qed.

Lemma schema_ok_no_activities st :
  schema_ok st → activities st = [] → participations st = [].
Proof.
  intros (_ & _ & _ & _ & _ & Hfk) Hacts.
  destruct (participations st) as [|p ps]; [done|].
  apply Forall_cons in Hfk as [[_ Hp] _]. rewrite Hacts in Hp.
  by apply elem_of_nil in Hp.
Qed.

Lemma schema_ok_initialize st : schema_ok st → schema_ok (initialize st).
Proof.
  intros Hok. unfold initialize.
  destruct (activities st) as [|a acts] eqn:Hacts.
  - rewrite init_db_fresh by done.
    pose proof (schema_ok_no_activities st Hok Hacts) as Hparts.
    destruct Hok as (Hsid & Hse & _ & _ & _ & _).
    unfold schema_ok. cbn [snd students activities participations]. rewrite Hparts.
    split_and!; [exact Hsid|exact Hse| | |constructor|constructor].
    + apply (bool_decide_unpack _). vm_compute. reflexivity.
    + apply (bool_decide_unpack _). vm_compute. reflexivity.
  - rewrite init_db_initialized; [done|]. by rewrite Hacts.
Qed.

(** ** Participant counts under insertion and deletion *)

Lemma participation_count_with_participation x sid aid st :
  participation_count x (with_participation sid aid st)
  = participation_count x st + (if decide (aid = x) then 1 else 0).
Proof.
  unfold participation_count, with_participation; cbn.
  rewrite filter_app, length_app, filter_cons; cbn.
  by case_decide.
Qed.

Lemma participation_count_delete x p st :
  participation_count x (delete_participation p st) ≤ participation_count x st.
Proof.
  unfold participation_count, delete_participation; cbn.
  induction (participations st) as [|q l IH]; [done|].
  rewrite (filter_cons (λ q, Participation.id q ≠ _)).
  case_decide; rewrite !filter_cons; repeat case_decide; cbn; lia.
Qed.

Lemma NoDup_fmap_elem_inj {A B} (f : A → B) (l : list A) (x y : A) :
  NoDup (f <$> l) → x ∈ l → y ∈ l → f x = f y → x = y.
Proof.
  induction l as [|z l IH]; [by intros _ ?%elem_of_nil|].
  rewrite fmap_cons, NoDup_cons.
  intros [Hz Hnd] [->|Hx]%elem_of_cons [->|Hy]%elem_of_cons Hf; try done.
  - destruct Hz. rewrite Hf. by apply list_elem_of_fmap_2.
  - destruct Hz. rewrite <- Hf. by apply list_elem_of_fmap_2.
  - by apply IH.
Qed.

Lemma capacity_ok_same_tables st st' :
  activities st' = activities st → participations st' = participations st →
  capacity_ok st → capacity_ok st'.
Proof.
  unfold capacity_ok, participation_count. by intros -> ->.
Qed.

Lemma capacity_ok_with_participation sid a st :
  NoDup (Activity.id <$> activities st) → a ∈ activities st →
  (Z.of_nat (participation_count (Activity.id a) st) < Activity.max_participants a)%Z →
  capacity_ok st → capacity_ok (with_participation sid (Activity.id a) st).
Proof.
  intros Hnd Ha Hlt Hcap. unfold capacity_ok in *.
  rewrite Forall_forall in Hcap |- *. cbn [activities with_participation]. intros b Hb.
  rewrite participation_count_with_participation.
  case_decide as Hid.
  - assert (a = b) as <- by by eapply NoDup_fmap_elem_inj.
    lia.
  - specialize (Hcap b Hb). lia.
Qed.

Lemma capacity_ok_delete_participation p st :
  capacity_ok st → capacity_ok (delete_participation p st).
Proof.
  unfold capacity_ok. rewrite !Forall_forall. cbn [activities delete_participation].
  intros Hcap b Hb.
  specialize (Hcap b Hb).
  pose proof (participation_count_delete (Activity.id b) p st). lia.
Qed.

Lemma capacity_ok_signup n e st :
  schema_ok st → capacity_ok st → capacity_ok (signup n e st).2.
Proof.
  intros Hok Hcap. rewrite signup_eq.
  destruct (activity_by_name n st) as [a|] eqn:Ha; [|done].
  apply activity_by_name_Some in Ha as [Ha _].
  destruct (resolve_student_spec e st Hok) as (Hok1 & _ & Hacts & Hparts).
  destruct (resolve_student e st) as [sid st1]; cbn in *.
  destruct (participation_of _ _ st); [done|].
  case_decide as Hfull; [done|]. cbn.
  apply capacity_ok_with_participation.
  - rewrite Hacts. apply Hok.
  - by rewrite Hacts.
  - unfold participation_count in *. rewrite Hparts. lia.
  - by apply (capacity_ok_same_tables st).
Qed.

Lemma capacity_ok_unregister n e st :
  capacity_ok st → capacity_ok (unregister n e st).2.
Proof.
  intros Hcap. rewrite unregister_eq.
  destruct (activity_by_name n st); [|done].
  destruct (student_by_email e st); [|done].
  destruct (participation_of _ _ st); [|done].
  by apply capacity_ok_delete_participation.
Qed.

Lemma capacity_ok_initialize st :
  schema_ok st → capacity_ok st → capacity_ok (initialize st).
Proof.
  intros Hok Hcap. unfold initialize.
  destruct (activities st) as [|a acts] eqn:Hacts.
  - rewrite init_db_fresh by done.
    unfold capacity_ok, participation_count.
    cbn [snd activities participations].
    rewrite (schema_ok_no_activities st Hok Hacts).
    apply (bool_decide_unpack _). vm_compute. reflexivity.
  - rewrite init_db_initialized; [done|]. by rewrite Hacts.
Qed.

Lemma service_ok_call c st : service_ok st → service_ok (call c st).
Proof.
  intros [Hok Hcap]. destruct c as [| |n e|n e]; cbn.
  - split; [by apply schema_ok_initialize|by apply capacity_ok_initialize].
  - by rewrite get_activities_eq.
  - split; [by apply schema_ok_signup|by apply capacity_ok_signup].
  - split; [by apply schema_ok_unregister|by apply capacity_ok_unregister].
Qed.

Lemma service_ok_calls cs st : service_ok st → service_ok (calls cs st).
Proof.
  revert st. induction cs as [|c cs IH]; intros st Hst; [done|].
  apply IH. by apply service_ok_call.
Qed.

Lemma listActivities_capacity st n info :
  capacity_ok st → listActivities st !! n = Some info →
  (Z.of_nat (Info.participants info) ≤ Info.max_participants info)%Z.
Proof.
  intros Hcap. rewrite listActivities_eq.
  intros [Hempty|(a & Ha & _ & ->)]%listing_lookup_inv.
  - by rewrite lookup_empty in Hempty.
  - unfold capacity_ok in Hcap. rewrite Forall_forall in Hcap.
    by apply Hcap.
Qed.

(** * The claims *)

(** C1: from a store that meets the schema constraints and in which no
    activity is over capacity, after any sequence of calls (initialize, list,
    signup, unregister; in particular any sequence whose signups all passed
    their capacity check), every entry that [listActivities] reports has a
    participant count no larger than its maximum. *)
Theorem capacity_never_exceeded st0 cs n info :
  schema_ok st0 → capacity_ok st0 →
  listActivities (calls cs st0) !! n = Some info →
  (Z.of_nat (Info.participants info) ≤ Info.max_participants info)%Z.
Proof.
  intros Hok Hcap Hlist.
  destruct (service_ok_calls cs st0 (conj Hok Hcap)) as [_ Hcap'].
  by eapply listActivities_capacity.
Qed.

Lemma capacity_never_exceeded_witness :
  listActivities
    (calls [CallInitialize; CallSignup "Math Club" "x@e.edu";
            CallSignup "Math Club" "y@e.edu"; CallUnregister "Math Club" "x@e.edu";
            CallSignup "Chess Club" "x@e.edu"] empty_store) !! "Math Club"
  = Some (Info.mk (Some "Solve challenging problems and participate in math competitions")
                  (Some "Tuesdays, 3:30 PM - 4:30 PM") 10 1)
  ∧ (Z.of_nat 1 ≤ 10)%Z.
Proof.
  split; [vm_compute; reflexivity|].
  apply (capacity_never_exceeded empty_store
           [CallInitialize; CallSignup "Math Club" "x@e.edu";
            CallSignup "Math Club" "y@e.edu"; CallUnregister "Math Club" "x@e.edu";
            CallSignup "Chess Club" "x@e.edu"] "Math Club"
           (Info.mk (Some "Solve challenging problems and participate in math competitions")
                    (Some "Tuesdays, 3:30 PM - 4:30 PM") 10 1)).
  - apply (bool_decide_unpack _). vm_compute. reflexivity.
  - apply (bool_decide_unpack _). vm_compute. reflexivity.
  - vm_compute. reflexivity.
Defined.

(** What the session of a signup looks like when the student had to be
    created and a later check fails: the flushed row is in the transaction
    view, nothing of it is committed. *)
Lemma signup_for_activity_new_student_failure n e st a exn db :
  activity_by_name n st = Some a → student_by_email e st = None →
  signup_for_activity n e (SessionLocal st) = (inl exn, db) →
  txn db = with_student e st ∧ committed db = st.
Proof.
  intros Ha Hs. unfold signup_for_activity. unfold_session.
  rewrite Ha. cbn. rewrite Hs. cbn.
  unfold insert_student. apply student_by_email_None in Hs.
  rewrite decide_False by done. cbn.
  destruct (participation_of _ _ _); cbn; [by intros [= <- <-]|].
  case_decide; [by intros [= <- <-]|]. unfold_session. done.
Qed.

Lemma student_by_email_with_student e st :
  student_by_email e st = None →
  student_by_email e (with_student e st)
  = Some (Student.mk (next_rowid (Student.id <$> students st)) e None None None).
Proof.
  intros Hs. unfold student_by_email, with_student in *; cbn.
  rewrite head_filter_app_r by done.
  by rewrite filter_cons, decide_True.
Qed.

(** C2, as amended: when signup resolves an existing activity, finds no
    student with the email, creates one and then fails the duplicate or the
    capacity check, the new row is visible to the reads of that call only;
    the call never commits, closing the session discards the row, and the
    persisted store after the failed call is the store before it, with no
    student of that email. *)
Theorem failed_signup_discards_new_student n e st a exn :
  activity_by_name n st = Some a → student_by_email e st = None →
  (signup n e st).1 = inl exn →
  (∃ db, signup_for_activity n e (SessionLocal st) = (inl exn, db) ∧
         is_Some (student_by_email e (txn db))) ∧
  (signup n e st).2 = st ∧
  student_by_email e (signup n e st).2 = None.
Proof.
  intros Ha Hs Hfail.
  assert ((signup n e st).2 = st) as Hst.
  { destruct (signup n e st) as [r st'] eqn:Hrun; cbn in *; subst r.
    by eapply signup_failure_store. }
  split_and!; [|done|by rewrite Hst].
  unfold signup, get_db in Hfail.
  destruct (signup_for_activity n e (SessionLocal st)) as [r db] eqn:Hrun.
  cbn in Hfail; subst r. exists db. split; [done|].
  destruct (signup_for_activity_new_student_failure n e st a exn db Ha Hs Hrun) as [-> _].
  by rewrite student_by_email_with_student.
Qed.

Lemma failed_signup_discards_new_student_witness :
  (signup "Chess Club" "bob@mergington.edu" full_store).1
    = inl (HTTPException 400 "Activity is full")
  ∧ (signup "Chess Club" "bob@mergington.edu" full_store).2 = full_store
  ∧ student_by_email "bob@mergington.edu"
      (signup "Chess Club" "bob@mergington.edu" full_store).2 = None.
Proof.
  split; [vm_compute; reflexivity|].
  apply (failed_signup_discards_new_student "Chess Club" "bob@mergington.edu" full_store
           (Activity.mk 1 "Chess Club" None (Some "Fridays") 1)
           (HTTPException 400 "Activity is full")).
  - vm_compute. reflexivity.
  - vm_compute. reflexivity.
  - vm_compute. reflexivity.
Defined.

(** C2, as stated, has no instance: no failed signup leaves behind the
    student it created. *)
Lemma created_student_not_persisted :
  ¬ ∃ n e st a exn,
      activity_by_name n st = Some a ∧ student_by_email e st = None ∧
      (signup n e st).1 = inl exn ∧
      (exn = HTTPException 400 "Student is already signed up for this activity"
       ∨ exn = HTTPException 400 "Activity is full") ∧
      e ∈ Student.email <$> students (signup n e st).2.
Proof.
  intros (n & e & st & a & exn & _ & Hs & Hfail & _ & Hin).
  destruct (signup n e st) as [r st'] eqn:Hrun; cbn in *; subst r.
  apply signup_failure_store in Hrun as ->.
  by apply student_by_email_None in Hs.
Qed.

(** ** Signing up twice *)

Lemma participation_of_None sid aid st :
  participation_of sid aid st = None ↔
  Forall (λ p, ¬ (Participation.student_id p = sid ∧ Participation.activity_id p = aid))
         (participations st).
Proof. apply head_filter_None. Qed.

(** A student row that does not exist yet has no participation: the foreign
    key of [participations.student_id]. *)
Lemma fresh_student_no_participation aid st :
  schema_ok st →
  participation_of (next_rowid (Student.id <$> students st)) aid st = None.
Proof.
  intros (_ & _ & _ & _ & _ & Hfk). apply participation_of_None.
  eapply Forall_impl; [exact Hfk|]. cbn. intros p [Hs _] [Hid _].
  rewrite Hid in Hs. by apply next_rowid_fresh in Hs.
Qed.

Lemma resolve_student_lookup e st :
  ∃ s, student_by_email e (resolve_student e st).2 = Some s ∧
       Student.id s = (resolve_student e st).1.
Proof.
  unfold resolve_student. destruct (student_by_email e st) as [s|] eqn:Hs; cbn.
  - by exists s.
  - eexists. split; [by apply student_by_email_with_student|done].
Qed.

Lemma participation_of_with_participation sid aid st1 st :
  participations st1 = participations st →
  participation_of sid aid st = None →
  participation_of sid aid (with_participation sid aid st1)
  = Some (Participation.mk
            (S (participations_seq st1 `max` max_list (Participation.id <$> participations st1)))
            sid aid)
  ∧ length (filter (λ p, Participation.student_id p = sid ∧ Participation.activity_id p = aid)
                   (participations (with_participation sid aid st1))) = 1.
Proof.
  intros Hparts Hnone. unfold participation_of, with_participation in *; cbn.
  rewrite <- Hparts in Hnone.
  rewrite head_filter_app_r by done.
  rewrite filter_app, length_app.
  pose proof (proj1 (head_filter_None _ _) Hnone) as Hall.
  rewrite (filter_none _ _ Hall).
  by rewrite filter_cons, decide_True.
Qed.

(** The hypothesis of C3 that the pair has no participation, for the id
    signup resolves the email to. *)
Lemma resolve_student_no_participation e a st :
  schema_ok st →
  (∀ s, student_by_email e st = Some s →
        participation_of (Student.id s) (Activity.id a) st = None) →
  participation_of (resolve_student e st).1 (Activity.id a) st = None.
Proof.
  intros Hok Hpair. unfold resolve_student.
  destruct (student_by_email e st) as [s|] eqn:Hs; cbn.
  - by apply Hpair.
  - by apply fresh_student_no_participation.
Qed.

(** C3: on a store that meets the schema constraints, where the activity
    exists and is below capacity and the (student, activity) pair has no
    participation, the first signup succeeds, the second with the same
    arguments fails with Conflict and changes nothing, and afterwards the
    pair has exactly one participation row (so at most one). *)
Theorem signup_twice_conflict n e st a :
  schema_ok st →
  activity_by_name n st = Some a →
  (Z.of_nat (participation_count (Activity.id a) st) < Activity.max_participants a)%Z →
  (∀ s, student_by_email e st = Some s →
        participation_of (Student.id s) (Activity.id a) st = None) →
  ∃ msg st1 exn s,
    signup n e st = (inr msg, st1) ∧
    signup n e st1 = (inl exn, st1) ∧
    error_kind exn = Conflict ∧
    student_by_email e st1 = Some s ∧
    length (filter (λ p, Participation.student_id p = Student.id s ∧
                         Participation.activity_id p = Activity.id a)
                   (participations st1)) = 1.
Proof.
  intros Hok Ha Hroom Hpair.
  pose proof (resolve_student_no_participation e a st Hok Hpair) as Hnone.
  destruct (resolve_student_spec e st Hok) as (_ & _ & Hacts & Hparts).
  destruct (resolve_student_lookup e st) as (s & Hs & Hid).
  rewrite (signup_eq n e st), Ha.
  destruct (resolve_student e st) as [sid st1] eqn:Hres; cbn in *.
  rewrite Hnone, decide_False by lia.
  destruct (participation_of_with_participation sid (Activity.id a) st1 st Hparts Hnone)
    as [Hdup Hone].
  eexists _, _, (HTTPException 400 "Student is already signed up for this activity"), s.
  split_and!; [done| |done|done|by rewrite Hid].
  rewrite signup_eq.
  assert (activity_by_name n (with_participation sid (Activity.id a) st1) = Some a) as ->.
  { unfold activity_by_name in *. cbn. by rewrite Hacts. }
  unfold resolve_student.
  assert (student_by_email e (with_participation sid (Activity.id a) st1) = Some s) as ->
    by done.
  by rewrite Hid, Hdup.
Qed.

Lemma signup_twice_conflict_witness :
  ∃ msg st1 exn s,
    signup "Chess Club" "new@e.edu" math_store = (inr msg, st1) ∧
    signup "Chess Club" "new@e.edu" st1 = (inl exn, st1) ∧
    error_kind exn = Conflict ∧
    student_by_email "new@e.edu" st1 = Some s ∧
    length (filter (λ p, Participation.student_id p = Student.id s ∧
                         Participation.activity_id p = 1)
                   (participations st1)) = 1.
Proof.
  apply (signup_twice_conflict "Chess Club" "new@e.edu" math_store
           (Activity.mk 1 "Chess Club"
              (Some "Learn strategies and compete in chess tournaments")
              (Some "Fridays, 3:30 PM - 5:00 PM") 12)).
  - apply (bool_decide_unpack _). vm_compute. reflexivity.
  - vm_compute. reflexivity.
  - vm_compute. reflexivity.
  - intros s Hs. vm_compute in Hs. injection Hs as <-. vm_compute. reflexivity.
Defined.

(** ** Signup followed by unregister *)

Lemma filter_all {A} (P : A → Prop) `{!∀ x, Decision (P x)} (l : list A) :
  Forall P l → filter P l = l.
Proof.
  induction 1 as [|x l Hx _ IH]; [done|].
  by rewrite filter_cons, decide_True, IH.
Qed.

Lemma delete_fresh_participation sid aid st :
  participations
    (delete_participation
       (Participation.mk
          (S (participations_seq st `max` max_list (Participation.id <$> participations st)))
          sid aid)
       (with_participation sid aid st))
  = participations st.
Proof.
  unfold delete_participation, with_participation; cbn.
  rewrite filter_app, filter_cons, decide_False by (cbn; tauto).
  rewrite filter_nil, app_nil_r. apply filter_all.
  apply Forall_forall. intros q Hq Heq.
  apply (participation_rowid_fresh st). rewrite <- Heq.
  by apply list_elem_of_fmap_2.
Qed.

Lemma listing_ext st st' acts (result : gmap string Info.t) :
  Participation.activity_id <$> participations st
    = Participation.activity_id <$> participations st' →
  listing st acts result = listing st' acts result.
Proof.
  intros Hids. revert result. induction acts as [|a acts IH]; intros result; [done|].
  rewrite !listing_cons, IH. unfold info_of.
  by rewrite (participation_count_activity_ids _ st st').
Qed.

Lemma listActivities_ext st st' :
  activities st = activities st' →
  Participation.activity_id <$> participations st
    = Participation.activity_id <$> participations st' →
  listActivities st = listActivities st'.
Proof.
  intros Hacts Hids. rewrite !listActivities_eq, Hacts. by apply listing_ext.
Qed.

Lemma signup_unregister_tables n e st m1 st1 m2 st2 :
  signup n e st = (inr m1, st1) → unregister n e st1 = (inr m2, st2) →
  activities st2 = activities st ∧ participations st2 = participations st.
Proof.
  rewrite signup_eq.
  destruct (activity_by_name n st) as [a|] eqn:Ha; [|done].
  destruct (resolve_student_lookup e st) as (s & Hs & Hid).
  assert (activities (resolve_student e st).2 = activities st ∧
          participations (resolve_student e st).2 = participations st) as [Hacts Hparts].
  { unfold resolve_student. by destruct (student_by_email e st). }
  destruct (resolve_student e st) as [sid st0]; cbn in *.
  destruct (participation_of sid _ st) eqn:Hnone; [done|].
  case_decide; [done|]. intros [= _ <-].
  rewrite unregister_eq.
  assert (activity_by_name n (with_participation sid (Activity.id a) st0) = Some a) as ->.
  { unfold activity_by_name in *. cbn. by rewrite Hacts. }
  assert (student_by_email e (with_participation sid (Activity.id a) st0) = Some s) as ->
    by done.
  destruct (participation_of_with_participation sid (Activity.id a) st0 st Hparts Hnone)
    as [Hdup _].
  rewrite Hid, Hdup. intros [= _ <-].
  by rewrite delete_fresh_participation.
Qed.

(** C4: when [signup] succeeds and the following [unregister] with the same
    arguments succeeds, the participant count that [listActivities] reports
    for that activity name is again what it was before the signup. *)
Theorem signup_unregister_round_trip n e st m1 st1 m2 st2 :
  signup n e st = (inr m1, st1) →
  unregister n e st1 = (inr m2, st2) →
  Info.participants <$> listActivities st2 !! n
  = Info.participants <$> listActivities st !! n.
Proof.
  intros H1 H2.
  destruct (signup_unregister_tables n e st m1 st1 m2 st2 H1 H2) as [Hacts Hparts].
  by rewrite (listActivities_ext st2 st) by (by rewrite ?Hparts).
Qed.

Lemma signup_unregister_round_trip_witness :
  Info.participants <$>
    listActivities
      (unregister "Chess Club" "x@e.edu"
         (signup "Chess Club" "x@e.edu" math_store).2).2 !! "Chess Club"
  = Info.participants <$> listActivities math_store !! "Chess Club"
  ∧ Info.participants <$> listActivities math_store !! "Chess Club" = Some 0
  ∧ Info.participants <$>
      listActivities (signup "Chess Club" "x@e.edu" math_store).2 !! "Chess Club"
    = Some 1.
Proof.
  split_and!; [|vm_compute; reflexivity..].
  apply (signup_unregister_round_trip "Chess Club" "x@e.edu" math_store
           "Signed up x@e.edu for Chess Club"
           (signup "Chess Club" "x@e.edu" math_store).2
           "Unregistered x@e.edu from Chess Club"
           (unregister "Chess Club" "x@e.edu"
              (signup "Chess Club" "x@e.edu" math_store).2).2).
  - vm_compute. reflexivity.
  - vm_compute. reflexivity.
Defined.

(** ** Bootstrap *)

(** C5: [init_db] changes nothing and prints "Database already initialized"
    as soon as one activity row exists; on every store, a fresh one
    included, running it twice leaves the same store (so the same
    activities and participations) as running it once, the second run being
    the "already initialized" one. *)
Theorem init_db_idempotent st :
  (activities st ≠ [] → init_db st = (inr "Database already initialized", st)) ∧
  init_db (initialize st) = (inr "Database already initialized", initialize st) ∧
  initialize (initialize st) = initialize st.
Proof.
  assert (activities (initialize st) ≠ []) as Hseeded.
  { unfold initialize. destruct (activities st) as [|a acts] eqn:Hacts.
    - by rewrite init_db_fresh.
    - rewrite init_db_initialized; cbn [snd]; by rewrite Hacts. }
  split_and!.
  - apply init_db_initialized.
  - by apply init_db_initialized.
  - unfold initialize at 1. by rewrite init_db_initialized.
Qed.

Lemma init_db_idempotent_witness :
  init_db seeded_store = (inr "Database already initialized", seeded_store)
  ∧ initialize (initialize empty_store) = initialize empty_store
  ∧ length (activities (initialize empty_store)) = 9.
Proof.
  split_and!.
  - apply (proj1 (init_db_idempotent seeded_store)).
    intros Hnil. vm_compute in Hnil. discriminate Hnil.
  - apply (init_db_idempotent empty_store).
  - vm_compute. reflexivity.
Defined.

(** ** Failures *)

(** C6: [unregister] fails with NotFound when the activity does not exist,
    with NotFound when no student has the email, with Conflict when both
    exist and the pair has no participation; every failing call returns the
    store it was given. *)
Theorem unregister_failures n e st :
  (activity_by_name n st = None →
   ∃ exn, unregister n e st = (inl exn, st) ∧ error_kind exn = NotFound) ∧
  (student_by_email e st = None →
   ∃ exn, unregister n e st = (inl exn, st) ∧ error_kind exn = NotFound) ∧
  (∀ a s, activity_by_name n st = Some a → student_by_email e st = Some s →
          participation_of (Student.id s) (Activity.id a) st = None →
          ∃ exn, unregister n e st = (inl exn, st) ∧ error_kind exn = Conflict) ∧
  (∀ exn st', unregister n e st = (inl exn, st') → st' = st).
Proof.
  split_and!.
  - intros Ha. rewrite unregister_eq, Ha. by eexists.
  - intros Hs. rewrite unregister_eq, Hs.
    destruct (activity_by_name n st); by eexists.
  - intros a s Ha Hs Hp. rewrite unregister_eq, Ha, Hs, Hp. by eexists.
  - apply unregister_failure_store.
Qed.

Lemma unregister_failures_witness :
  unregister "Knitting" "ann@mergington.edu" full_store
    = (inl (HTTPException 404 "Activity not found"), full_store)
  ∧ unregister "Chess Club" "bob@mergington.edu" full_store
    = (inl (HTTPException 404 "Student not found"), full_store)
  ∧ (∃ exn, unregister "Chess Club" "new@e.edu" math_store = (inl exn, math_store)
            ∧ error_kind exn = Conflict).
Proof.
  split_and!; [vm_compute; reflexivity..|].
  apply (proj1 (proj2 (proj2 (unregister_failures "Chess Club" "new@e.edu" math_store)))
           (Activity.mk 1 "Chess Club"
              (Some "Learn strategies and compete in chess tournaments")
              (Some "Fridays, 3:30 PM - 5:00 PM") 12)
           (Student.mk 1 "new@e.edu" None None None)).
  - vm_compute. reflexivity.
  - vm_compute. reflexivity.
  - vm_compute. reflexivity.
Defined.

(** C7: [signup] fails with NotFound exactly when no activity has the given
    name, and then returns the store it was given: no student row and no
    participation row is written. *)
Theorem signup_not_found n e st :
  ((∃ exn, (signup n e st).1 = inl exn ∧ error_kind exn = NotFound)
   ↔ activity_by_name n st = None) ∧
  (activity_by_name n st = None →
   signup n e st = (inl (HTTPException 404 "Activity not found"), st)).
Proof.
  rewrite signup_eq.
  destruct (activity_by_name n st) as [a|]; [|by split; [split; [|eexists]|]].
  split; [|done]. split; [|done]. intros (exn & Hfail & Hkind).
  destruct (resolve_student e st) as [sid st1].
  destruct (participation_of _ _ st); [by injection Hfail as <-|].
  case_decide; [by injection Hfail as <-|done].
Qed.

Lemma signup_not_found_witness :
  signup "Knitting" "bob@mergington.edu" full_store
  = (inl (HTTPException 404 "Activity not found"), full_store).
Proof.
  apply (proj2 (signup_not_found "Knitting" "bob@mergington.edu" full_store)).
  vm_compute. reflexivity.
Defined.

(** C9: when the student already has a participation in the activity and the
    activity is at or above its capacity, [signup] fails with "Student is
    already signed up for this activity", not with "Activity is full". *)
Theorem duplicate_check_before_capacity_check n e st a s p :
  activity_by_name n st = Some a →
  student_by_email e st = Some s →
  participation_of (Student.id s) (Activity.id a) st = Some p →
  (Activity.max_participants a ≤ Z.of_nat (participation_count (Activity.id a) st))%Z →
  signup n e st
  = (inl (HTTPException 400 "Student is already signed up for this activity"), st).
Proof.
  intros Ha Hs Hp _. rewrite signup_eq, Ha. unfold resolve_student.
  by rewrite Hs, Hp.
Qed.

Lemma duplicate_check_before_capacity_check_witness :
  signup "Chess Club" "ann@mergington.edu" full_store
  = (inl (HTTPException 400 "Student is already signed up for this activity"), full_store).
Proof.
  apply (duplicate_check_before_capacity_check "Chess Club" "ann@mergington.edu" full_store
           (Activity.mk 1 "Chess Club" None (Some "Fridays") 1)
           (Student.mk 1 "ann@mergington.edu" None None None)
           (Participation.mk 1 1 1)).
  - vm_compute. reflexivity.
  - vm_compute. reflexivity.
  - vm_compute. reflexivity.
  - vm_compute. discriminate.
Defined.

(** ** The listing *)

Lemma listing_lookup_names st acts (result : gmap string Info.t) n :
  is_Some (listing st acts result !! n) →
  is_Some (result !! n) ∨ n ∈ Activity.name <$> acts.
Proof.
  intros [i [Hr|(a & Ha & <- & _)]%listing_lookup_inv].
  - left. by exists i.
  - right. by apply list_elem_of_fmap_2.
Qed.

(** C8: on a store that meets the schema constraints, [get_activities]
    raises nothing, writes nothing, and returns a mapping that has, for
    every activity row, under its name, the row's description, schedule and
    maximum together with the number of participation rows of that activity;
    it has no other keys, and it is a function of the activities table and
    of the activity ids of the participations alone, so no student id or
    email can be read off it. *)
Theorem get_activities_counts st :
  schema_ok st →
  get_db get_activities st = (inr (listActivities st), st) ∧
  (∀ a, a ∈ activities st →
        listActivities st !! Activity.name a
        = Some (Info.mk (Activity.description a) (Activity.schedule a)
                        (Activity.max_participants a)
                        (length (filter (λ p, Participation.activity_id p = Activity.id a)
                                        (participations st))))) ∧
  (∀ n, is_Some (listActivities st !! n) → n ∈ Activity.name <$> activities st) ∧
  (∀ st', activities st' = activities st →
          Participation.activity_id <$> participations st'
            = Participation.activity_id <$> participations st →
          listActivities st' = listActivities st).
Proof.
  intros (_ & _ & _ & Hnames & _ & _). split_and!.
  - by rewrite listActivities_eq, get_activities_eq.
  - intros a Ha. rewrite listActivities_eq. by apply listing_lookup_nodup.
  - intros n. rewrite listActivities_eq.
    intros [Hempty|Hn]%listing_lookup_names; [|done].
    rewrite lookup_empty in Hempty. by destruct Hempty.
  - intros st' Hacts Hids. by apply listActivities_ext.
Qed.

Lemma get_activities_counts_witness :
  listActivities math_store !! "Math Club"
  = Some (Info.mk (Some "Solve challenging problems and participate in math competitions")
                  (Some "Tuesdays, 3:30 PM - 4:30 PM") 10 1)
  ∧ size (listActivities math_store) = 9.
Proof.
  split; [|vm_compute; reflexivity].
  assert (schema_ok math_store) as Hok
    by (apply (bool_decide_unpack _); vm_compute; reflexivity).
  apply (proj1 (proj2 (get_activities_counts math_store Hok))
           (Activity.mk 8 "Math Club"
              (Some "Solve challenging problems and participate in math competitions")
              (Some "Tuesdays, 3:30 PM - 4:30 PM") 10)).
  apply (bool_decide_unpack _). vm_compute. reflexivity.
Defined.

(** ** Unregistering *)

Lemma delete_participation_split (p : Participation.t) (l1 l2 : list Participation.t) :
  NoDup (Participation.id <$> (l1 ++ p :: l2)) →
  filter (λ q, Participation.id q ≠ Participation.id p) (l1 ++ p :: l2) = l1 ++ l2.
Proof.
  rewrite fmap_app, fmap_cons. intros (_ & Hl1 & [Hp _]%NoDup_cons)%NoDup_app.
  rewrite filter_app, filter_cons, decide_False by tauto.
  f_equal; apply filter_all, Forall_forall; intros q Hq Heq.
  - apply (Hl1 (Participation.id q)); [by apply list_elem_of_fmap_2|].
    rewrite Heq. apply list_elem_of_here.
  - apply Hp. rewrite <- Heq. by apply list_elem_of_fmap_2.
Qed.

(** C10: on a store that meets the schema constraints, a successful
    [unregister] removes one participation row, a row of that student in
    that activity, and leaves the other participation rows, in their order,
    the students table and the activities table as they were. *)
Theorem unregister_frame n e st msg st' :
  schema_ok st →
  unregister n e st = (inr msg, st') →
  ∃ a s p l1 l2,
    activity_by_name n st = Some a ∧
    student_by_email e st = Some s ∧
    Participation.student_id p = Student.id s ∧
    Participation.activity_id p = Activity.id a ∧
    participations st = l1 ++ p :: l2 ∧
    participations st' = l1 ++ l2 ∧
    students st' = students st ∧
    activities st' = activities st.
Proof.
  intros (_ & _ & _ & _ & Hpk & _). rewrite unregister_eq.
  destruct (activity_by_name n st) as [a|]; [|done].
  destruct (student_by_email e st) as [s|]; [|done].
  destruct (participation_of _ _ st) as [p|] eqn:Hp; [|done].
  intros [= _ <-].
  apply head_filter_Some in Hp as (l1 & l2 & Hl & [Hsid Haid] & _).
  exists a, s, p, l1, l2. split_and!; try done.
  cbn. rewrite Hl in Hpk |- *. by apply delete_participation_split.
Qed.

Lemma unregister_frame_witness :
  ∃ a s p l1 l2,
    activity_by_name "Math Club" math_store = Some a ∧
    student_by_email "new@e.edu" math_store = Some s ∧
    Participation.student_id p = Student.id s ∧
    Participation.activity_id p = Activity.id a ∧
    participations math_store = l1 ++ p :: l2 ∧
    participations (unregister "Math Club" "new@e.edu" math_store).2 = l1 ++ l2 ∧
    students (unregister "Math Club" "new@e.edu" math_store).2 = students math_store ∧
    activities (unregister "Math Club" "new@e.edu" math_store).2 = activities math_store.
Proof.
  apply (unregister_frame "Math Club" "new@e.edu" math_store
           "Unregistered new@e.edu from Math Club").
  - apply (bool_decide_unpack _). vm_compute. reflexivity.
  - vm_compute. reflexivity.
Defined.

(** * Further properties of the service *)

(** ** What a successful call has done *)

Lemma signup_success_inv n e st msg st' :
  signup n e st = (inr msg, st') →
  ∃ a, activity_by_name n st = Some a ∧
       participation_of (resolve_student e st).1 (Activity.id a) st = None ∧
       (Z.of_nat (participation_count (Activity.id a) st) < Activity.max_participants a)%Z ∧
       msg = "Signed up " +:+ e +:+ " for " +:+ n ∧
       st' = with_participation (resolve_student e st).1 (Activity.id a)
                                (resolve_student e st).2.
Proof.
  rewrite signup_eq.
  destruct (activity_by_name n st) as [a|]; [|done].
  destruct (resolve_student e st) as [sid st1]; cbn [fst snd].
  destruct (participation_of sid _ st) eqn:Hp; [done|].
  case_decide as Hfull; [done|]. intros [= <- <-].
  exists a. split_and!; try done. lia.
Qed.

Lemma unregister_success_inv n e st msg st' :
  unregister n e st = (inr msg, st') →
  ∃ a s p, activity_by_name n st = Some a ∧
           student_by_email e st = Some s ∧
           participation_of (Student.id s) (Activity.id a) st = Some p ∧
           msg = "Unregistered " +:+ e +:+ " from " +:+ n ∧
           st' = delete_participation p st.
Proof.
  rewrite unregister_eq.
  destruct (activity_by_name n st) as [a|]; [|done].
  destruct (student_by_email e st) as [s|]; [|done].
  destruct (participation_of _ _ st) as [p|] eqn:Hp; [|done].
  intros [= <- <-]. by exists a, s, p.
Qed.

Lemma initialize_tables st :
  students (initialize st) = students st ∧
  participations (initialize st) = participations st ∧
  participations_seq (initialize st) = participations_seq st.
Proof.
  unfold initialize. destruct (activities st) as [|a acts] eqn:Hacts.
  - by rewrite init_db_fresh.
  - rewrite init_db_initialized; [done|]. by rewrite Hacts.
Qed.

Lemma resolve_student_found e st s :
  student_by_email e st = Some s → resolve_student e st = (Student.id s, st).
Proof. unfold resolve_student. by intros ->. Qed.

(** X1: on a store that meets the schema constraints, [signup] succeeds
    exactly when the activity exists, the student (if there is one with that
    email) has no participation in it, and the activity holds fewer
    participations than its maximum. *)
Theorem signup_succeeds_iff n e st :
  schema_ok st →
  (∃ msg st', signup n e st = (inr msg, st')) ↔
  (∃ a, activity_by_name n st = Some a ∧
        (∀ s, student_by_email e st = Some s →
              participation_of (Student.id s) (Activity.id a) st = None) ∧
        (Z.of_nat (participation_count (Activity.id a) st)
         < Activity.max_participants a)%Z).
Proof.
  intros Hok. split.
  - intros (msg & st' & (a & Ha & Hp & Hroom & _)%signup_success_inv).
    exists a. split_and!; [done| |done].
    intros s Hs. by rewrite (resolve_student_found e st s Hs) in Hp.
  - intros (a & Ha & Hpair & Hroom).
    pose proof (resolve_student_no_participation e a st Hok Hpair) as Hnone.
    rewrite signup_eq, Ha.
    destruct (resolve_student e st) as [sid st1]; cbn [fst] in Hnone.
    rewrite Hnone, decide_False by lia. eexists _, _. reflexivity.
Qed.

Lemma signup_succeeds_iff_witness :
  (∃ msg st', signup "Art Club" "ann@mergington.edu" two_store = (inr msg, st')) ↔
  (∃ a, activity_by_name "Art Club" two_store = Some a ∧
        (∀ s, student_by_email "ann@mergington.edu" two_store = Some s →
              participation_of (Student.id s) (Activity.id a) two_store = None) ∧
        (Z.of_nat (participation_count (Activity.id a) two_store)
         < Activity.max_participants a)%Z).
Proof.
  apply (signup_succeeds_iff "Art Club" "ann@mergington.edu" two_store).
  apply (bool_decide_unpack _). vm_compute. reflexivity.
Defined.

(** X2: on a store that meets the schema constraints, when the activity
    exists, the student is not enrolled in it and it already holds at least
    its maximum of participations, [signup] fails with 400 "Activity is full"
    and returns the store unchanged. *)
Theorem signup_full_activity n e st a :
  schema_ok st →
  activity_by_name n st = Some a →
  (∀ s, student_by_email e st = Some s →
        participation_of (Student.id s) (Activity.id a) st = None) →
  (Activity.max_participants a ≤ Z.of_nat (participation_count (Activity.id a) st))%Z →
  signup n e st = (inl (HTTPException 400 "Activity is full"), st).
Proof.
  intros Hok Ha Hpair Hfull.
  pose proof (resolve_student_no_participation e a st Hok Hpair) as Hnone.
  rewrite signup_eq, Ha.
  destruct (resolve_student e st) as [sid st1]; cbn [fst] in Hnone.
  by rewrite Hnone, decide_True.
Qed.

Lemma signup_full_activity_witness :
  signup "Chess Club" "bob@mergington.edu" full_store
  = (inl (HTTPException 400 "Activity is full"), full_store).
Proof.
  apply (signup_full_activity "Chess Club" "bob@mergington.edu" full_store
           (Activity.mk 1 "Chess Club" None (Some "Fridays") 1)).
  - apply (bool_decide_unpack _). vm_compute. reflexivity.
  - vm_compute. reflexivity.
  - intros s Hs. vm_compute in Hs. discriminate Hs.
  - vm_compute. discriminate.
Defined.

(** X3: a successful [signup] returns "Signed up <email> for <name>",
    leaves the activities table and every existing student and participation
    row in place, appends one participation row of the resolved student in
    the named activity, and appends a student row, holding the email and
    nothing else, only when no student had that email. *)
Theorem signup_frame n e st msg st' :
  signup n e st = (inr msg, st') →
  msg = "Signed up " +:+ e +:+ " for " +:+ n ∧
  activities st' = activities st ∧
  ∃ a sid i,
    activity_by_name n st = Some a ∧
    participations st' = participations st ++ [Participation.mk i sid (Activity.id a)] ∧
    match student_by_email e st with
    | Some s => sid = Student.id s ∧ students st' = students st
    | None => students st' = students st ++ [Student.mk sid e None None None]
    end.
Proof.
  intros (a & Ha & _ & _ & -> & ->)%signup_success_inv.
  unfold resolve_student.
  destruct (student_by_email e st) as [s|]; cbn [fst snd];
    (split_and!; [done..|]); by eexists a, _, _.
Qed.

Lemma signup_frame_witness :
  ∃ msg st', signup "Art Club" "bob@mergington.edu" two_store = (inr msg, st') ∧
    msg = "Signed up bob@mergington.edu for Art Club" ∧
    students st' = students two_store ++ [Student.mk 2 "bob@mergington.edu" None None None] ∧
    participations st' = participations two_store ++ [Participation.mk 8 2 2].
Proof.
  eexists _, _. split; [vm_compute; reflexivity|].
  destruct (signup_frame "Art Club" "bob@mergington.edu" two_store _ _ eq_refl)
    as (Hmsg & _ & _).
  split; [exact Hmsg|]. split; vm_compute; reflexivity.
Defined.

(** X4: every failure of [signup] is one of its three HTTP errors (404
    "Activity not found", 400 "Student is already signed up for this
    activity", 400 "Activity is full"); the INSERT of a new student never
    breaks the uniqueness of emails, whatever the store. *)
Theorem signup_failure_kinds n e st exn :
  (signup n e st).1 = inl exn → exn ∈ signup_errors.
Proof.
  rewrite signup_eq. unfold signup_errors.
  destruct (activity_by_name n st) as [a|]; cbn [fst].
  - destruct (resolve_student e st) as [sid st1].
    destruct (participation_of _ _ st); cbn [fst].
    + intros [= <-]. apply list_elem_of_further, list_elem_of_here.
    + case_decide; cbn [fst]; [|done].
      intros [= <-]. do 2 apply list_elem_of_further. apply list_elem_of_here.
  - intros [= <-]. apply list_elem_of_here.
Qed.

Lemma signup_failure_kinds_witness :
  HTTPException 400 "Activity is full" ∈ signup_errors.
Proof.
  apply (signup_failure_kinds "Chess Club" "bob@mergington.edu" full_store).
  vm_compute. reflexivity.
Defined.

(** ** The listing after a successful call *)

Lemma listActivities_lookup st a :
  NoDup (Activity.name <$> activities st) → a ∈ activities st →
  listActivities st !! Activity.name a = Some (info_of st a).
Proof. intros Hnd Ha. rewrite listActivities_eq. by apply listing_lookup_nodup. Qed.

Lemma participation_count_delete_exact x p st :
  NoDup (Participation.id <$> participations st) → p ∈ participations st →
  participation_count x (delete_participation p st)
    + (if decide (Participation.activity_id p = x) then 1 else 0)
  = participation_count x st.
Proof.
  intros Hnd (l1 & l2 & Hl)%list_elem_of_split.
  unfold participation_count, delete_participation; cbn [participations].
  rewrite Hl in Hnd |- *. rewrite delete_participation_split by done.
  rewrite !filter_app, filter_cons, !length_app.
  case_decide; cbn [length]; lia.
Qed.

Lemma participation_of_Some sid aid st p :
  participation_of sid aid st = Some p →
  p ∈ participations st ∧ Participation.student_id p = sid ∧ Participation.activity_id p = aid.
Proof.
  intros (l1 & l2 & Hl & [Hs Ha] & _)%head_filter_Some.
  rewrite Hl. split; [|done]. apply elem_of_app. right. apply list_elem_of_here.
Qed.

(** Under the schema constraints, an activity row is the one [signup] and
    [unregister] resolve the name [n] to exactly when its name is [n]. *)
Lemma same_activity_iff st a b :
  schema_ok st → a ∈ activities st → b ∈ activities st →
  Activity.id a = Activity.id b ↔ Activity.name b = Activity.name a.
Proof.
  intros (_ & _ & Hids & Hnames & _) Ha Hb. split; intros Heq.
  - by rewrite (NoDup_fmap_elem_inj Activity.id _ a b Hids Ha Hb Heq).
  - by rewrite (NoDup_fmap_elem_inj Activity.name _ b a Hnames Hb Ha Heq).
Qed.

(** X5: on a store that meets the schema constraints, after a successful
    [signup] the listing shows, for every activity, the same description,
    schedule and maximum as before and the count it had before, plus one for
    the activity signed up to and plus nothing for the others. *)
Theorem signup_listing_effect n e st msg st' b :
  schema_ok st →
  signup n e st = (inr msg, st') →
  b ∈ activities st →
  listActivities st' !! Activity.name b
  = Some (Info.mk (Activity.description b) (Activity.schedule b)
                  (Activity.max_participants b)
                  (participation_count (Activity.id b) st
                   + (if decide (Activity.name b = n) then 1 else 0))).
Proof.
  intros Hok (a & Ha & _ & _ & _ & ->)%signup_success_inv Hb.
  destruct (resolve_student_spec e st Hok) as (_ & _ & Hacts & Hparts).
  apply activity_by_name_Some in Ha as [Ha Hn].
  rewrite listActivities_lookup; cbn [activities with_participation];
    rewrite ?Hacts; [|apply Hok|done].
  unfold info_of. rewrite participation_count_with_participation.
  unfold participation_count at 1. rewrite Hparts. fold (participation_count (Activity.id b) st).
  do 2 f_equal. rewrite <- Hn.
  pose proof (same_activity_iff st a b Hok Ha Hb).
  repeat case_decide; tauto.
Qed.

Lemma signup_listing_effect_witness :
  listActivities (signup "Art Club" "bob@mergington.edu" two_store).2 !! "Art Club"
  = Some (Info.mk (Some "Painting") None 1 (0 + 1))
  ∧ listActivities (signup "Art Club" "bob@mergington.edu" two_store).2 !! "Chess Club"
  = Some (Info.mk None (Some "Fridays") 2 (1 + 0)).
Proof.
  assert (schema_ok two_store) as Hok
    by (apply (bool_decide_unpack _); vm_compute; reflexivity).
  split.
  - apply (signup_listing_effect "Art Club" "bob@mergington.edu" two_store
             "Signed up bob@mergington.edu for Art Club"
             (signup "Art Club" "bob@mergington.edu" two_store).2
             (Activity.mk 2 "Art Club" (Some "Painting") None 1) Hok).
    + vm_compute. reflexivity.
    + apply (bool_decide_unpack _). vm_compute. reflexivity.
  - vm_compute. reflexivity.
Defined.

(** X6: on a store that meets the schema constraints, after a successful
    [unregister] the listing shows, for every activity, the count it had
    before, less one for the activity left and unchanged for the others. *)
Theorem unregister_listing_effect n e st msg st' b :
  schema_ok st →
  unregister n e st = (inr msg, st') →
  b ∈ activities st →
  listActivities st' !! Activity.name b
  = Some (Info.mk (Activity.description b) (Activity.schedule b)
                  (Activity.max_participants b)
                  (participation_count (Activity.id b) st
                   - (if decide (Activity.name b = n) then 1 else 0))).
Proof.
  intros Hok (a & s & p & Ha & _ & Hp & _ & ->)%unregister_success_inv Hb.
  apply activity_by_name_Some in Ha as [Ha Hn].
  apply participation_of_Some in Hp as (Hp & _ & Hpa).
  rewrite listActivities_lookup; cbn [activities delete_participation]; [|apply Hok|done].
  unfold info_of. do 2 f_equal.
  assert (NoDup (Participation.id <$> participations st)) as Hpk by apply Hok.
  pose proof (participation_count_delete_exact (Activity.id b) p st Hpk Hp) as Hcount.
  pose proof (same_activity_iff st a b Hok Ha Hb).
  rewrite Hpa, <- Hn in *.
  repeat case_decide; try tauto; lia.
Qed.

Lemma unregister_listing_effect_witness :
  listActivities (unregister "Chess Club" "ann@mergington.edu" two_store).2 !! "Chess Club"
  = Some (Info.mk None (Some "Fridays") 2 (1 - 1)).
Proof.
  apply (unregister_listing_effect "Chess Club" "ann@mergington.edu" two_store
           "Unregistered ann@mergington.edu from Chess Club"
           (unregister "Chess Club" "ann@mergington.edu" two_store).2
           (Activity.mk 1 "Chess Club" None (Some "Fridays") 2)).
  - apply (bool_decide_unpack _). vm_compute. reflexivity.
  - vm_compute. reflexivity.
  - apply (bool_decide_unpack _). vm_compute. reflexivity.
Defined.

(** ** Invariants of call sequences *)

Lemma resolve_student_tables e st :
  activities (resolve_student e st).2 = activities st ∧
  participations (resolve_student e st).2 = participations st ∧
  participations_seq (resolve_student e st).2 = participations_seq st ∧
  students st `prefix_of` students (resolve_student e st).2.
Proof.
  unfold resolve_student. destruct (student_by_email e st); cbn [snd].
  - done.
  - split_and!; try done. by eexists.
Qed.

Lemma pairs_unique_with_participation sid aid st1 st :
  participations st1 = participations st →
  participation_of sid aid st = None →
  pairs_unique st → pairs_unique (with_participation sid aid st1).
Proof.
  unfold pairs_unique. intros Hparts Hnone Hnd. cbn [participations with_participation].
  rewrite Hparts, fmap_app. apply NoDup_snoc_fresh; [done|].
  apply participation_of_None in Hnone. rewrite Forall_forall in Hnone.
  intros (p & Hpair & Hp)%list_elem_of_fmap.
  apply (Hnone p Hp). by injection Hpair as <- <-.
Qed.

Lemma pairs_unique_delete_participation p st :
  pairs_unique st → pairs_unique (delete_participation p st).
Proof.
  unfold pairs_unique. intros Hnd. cbn [participations delete_participation].
  eapply sublist_NoDup; [exact Hnd|]. apply fmap_sublist, sublist_filter.
Qed.

Lemma pairs_unique_call c st : pairs_unique st → pairs_unique (call c st).
Proof.
  intros Hnd. destruct c as [| |n e|n e]; cbn [call].
  - unfold pairs_unique. by rewrite (proj1 (proj2 (initialize_tables st))).
  - by rewrite get_activities_eq.
  - destruct (signup n e st) as [[exn|msg] st'] eqn:Hrun; cbn [snd].
    + by rewrite (signup_failure_store n e st exn st' Hrun).
    + apply signup_success_inv in Hrun as (a & _ & Hnone & _ & _ & ->).
      apply (pairs_unique_with_participation _ _ _ st); [|done..].
      apply resolve_student_tables.
  - destruct (unregister n e st) as [[exn|msg] st'] eqn:Hrun; cbn [snd].
    + by rewrite (unregister_failure_store n e st exn st' Hrun).
    + apply unregister_success_inv in Hrun as (a & s & p & _ & _ & _ & _ & ->).
      by apply pairs_unique_delete_participation.
Qed.

(** X7: no sequence of calls enrolls a pair twice: from a store in which
    every (student, activity) pair has at most one participation row, every
    sequence of initialize, list, signup and unregister calls ends in such a
    store, although the table declares no uniqueness constraint. *)
Theorem calls_keep_pairs_unique cs st :
  pairs_unique st → pairs_unique (calls cs st).
Proof.
  revert st. induction cs as [|c cs IH]; intros st Hst; [done|].
  apply IH. by apply pairs_unique_call.
Qed.

Lemma calls_keep_pairs_unique_witness :
  pairs_unique
    (calls [CallSignup "Art Club" "ann@mergington.edu";
            CallSignup "Art Club" "ann@mergington.edu";
            CallUnregister "Chess Club" "ann@mergington.edu";
            CallSignup "Chess Club" "ann@mergington.edu"] two_store).
Proof.
  apply (calls_keep_pairs_unique
           [CallSignup "Art Club" "ann@mergington.edu";
            CallSignup "Art Club" "ann@mergington.edu";
            CallUnregister "Chess Club" "ann@mergington.edu";
            CallSignup "Chess Club" "ann@mergington.edu"] two_store).
  apply (bool_decide_unpack _). vm_compute. reflexivity.
Defined.

Lemma schema_ok_call c st : schema_ok st → schema_ok (call c st).
Proof.
  intros Hok. destruct c as [| |n e|n e]; cbn [call].
  - by apply schema_ok_initialize.
  - by rewrite get_activities_eq.
  - by apply schema_ok_signup.
  - by apply schema_ok_unregister.
Qed.

(** X8: the constraints the schema declares (primary keys, unique student
    emails and activity names, the two foreign keys of participations) are
    kept by every sequence of calls, so no call ever writes a row that the
    store would have to refuse. *)
Theorem calls_keep_schema cs st : schema_ok st → schema_ok (calls cs st).
Proof.
  revert st. induction cs as [|c cs IH]; intros st Hst; [done|].
  apply IH. by apply schema_ok_call.
Qed.

Lemma calls_keep_schema_witness :
  schema_ok
    (calls [CallInitialize; CallSignup "Chess Club" "x@e.edu";
            CallSignup "Math Club" "x@e.edu"; CallUnregister "Chess Club" "x@e.edu";
            CallInitialize; CallList] empty_store).
Proof.
  apply (calls_keep_schema
           [CallInitialize; CallSignup "Chess Club" "x@e.edu";
            CallSignup "Math Club" "x@e.edu"; CallUnregister "Chess Club" "x@e.edu";
            CallInitialize; CallList] empty_store).
  apply (bool_decide_unpack _). vm_compute. reflexivity.
Defined.

Lemma students_prefix_call c st : students st `prefix_of` students (call c st).
Proof.
  destruct c as [| |n e|n e]; cbn [call].
  - by rewrite (proj1 (initialize_tables st)).
  - by rewrite get_activities_eq.
  - destruct (signup n e st) as [[exn|msg] st'] eqn:Hrun; cbn [snd].
    + by rewrite (signup_failure_store n e st exn st' Hrun).
    + apply signup_success_inv in Hrun as (a & _ & _ & _ & _ & ->).
      apply resolve_student_tables.
  - destruct (unregister n e st) as [[exn|msg] st'] eqn:Hrun; cbn [snd].
    + by rewrite (unregister_failure_store n e st exn st' Hrun).
    + by apply unregister_success_inv in Hrun as (a & s & p & _ & _ & _ & _ & ->).
Qed.

(** X9: no call deletes or rewrites a student row: after any sequence of
    calls the students table starts with the rows it had, unchanged and in
    the same order; calls only ever append to it. *)
Theorem students_never_deleted cs st :
  students st `prefix_of` students (calls cs st).
Proof.
  revert st. induction cs as [|c cs IH]; intros st; [done|].
  cbn [calls foldl]. etrans; [apply (students_prefix_call c)|apply IH].
Qed.

Lemma activities_call c st :
  activities st ≠ [] → activities (call c st) = activities st.
Proof.
  intros Hacts. destruct c as [| |n e|n e]; cbn [call].
  - unfold initialize. by rewrite init_db_initialized.
  - by rewrite get_activities_eq.
  - destruct (signup n e st) as [[exn|msg] st'] eqn:Hrun; cbn [snd].
    + by rewrite (signup_failure_store n e st exn st' Hrun).
    + apply signup_success_inv in Hrun as (a & _ & _ & _ & _ & ->).
      apply resolve_student_tables.
  - destruct (unregister n e st) as [[exn|msg] st'] eqn:Hrun; cbn [snd].
    + by rewrite (unregister_failure_store n e st exn st' Hrun).
    + by apply unregister_success_inv in Hrun as (a & s & p & _ & _ & _ & _ & ->).
Qed.

(** X10: once the activities table holds a row, no sequence of calls
    changes it: there is no way to add, edit or remove an activity, and a
    later bootstrap does not touch it. *)
Theorem activities_fixed_once_seeded cs st :
  activities st ≠ [] → activities (calls cs st) = activities st.
Proof.
  revert st. induction cs as [|c cs IH]; intros st Hacts; [done|].
  cbn [calls foldl].
  pose proof (activities_call c st Hacts) as Hc.
  etrans; [apply IH; by rewrite Hc|done].
Qed.

Lemma activities_fixed_once_seeded_witness :
  activities
    (calls [CallSignup "Art Club" "bob@mergington.edu"; CallInitialize;
            CallUnregister "Chess Club" "ann@mergington.edu"] two_store)
  = activities two_store.
Proof.
  apply (activities_fixed_once_seeded
           [CallSignup "Art Club" "bob@mergington.edu"; CallInitialize;
            CallUnregister "Chess Club" "ann@mergington.edu"] two_store).
  intros Hnil. vm_compute in Hnil. discriminate Hnil.
Defined.

(** ** Unregistering twice, and signing up again *)

Lemma participation_of_after_delete sid aid p st :
  pairs_unique st →
  participation_of sid aid st = Some p →
  participation_of sid aid (delete_participation p st) = None.
Proof.
  intros Hnd (Hp & Hs & Ha)%participation_of_Some.
  apply participation_of_None, Forall_forall.
  cbn [participations delete_participation].
  intros q [Hid Hq]%list_elem_of_filter [Hqs Hqa].
  apply Hid. f_equal.
  apply (NoDup_fmap_elem_inj pair_of (participations st)); [done..|].
  unfold pair_of. by rewrite Hs, Ha, Hqs, Hqa.
Qed.

(** X11: on a store where no pair is enrolled twice, a second [unregister]
    with the arguments of a successful one fails with 400 "Student is not
    signed up for this activity" and changes nothing. *)
Theorem unregister_twice_conflict n e st msg st1 :
  pairs_unique st →
  unregister n e st = (inr msg, st1) →
  unregister n e st1
  = (inl (HTTPException 400 "Student is not signed up for this activity"), st1).
Proof.
  intros Hnd (a & s & p & Ha & Hs & Hp & _ & ->)%unregister_success_inv.
  rewrite unregister_eq.
  change (activity_by_name n (delete_participation p st)) with (activity_by_name n st).
  change (student_by_email e (delete_participation p st)) with (student_by_email e st).
  by rewrite Ha, Hs, (participation_of_after_delete _ _ p st Hnd Hp).
Qed.

Lemma unregister_twice_conflict_witness :
  unregister "Chess Club" "ann@mergington.edu"
    (unregister "Chess Club" "ann@mergington.edu" two_store).2
  = (inl (HTTPException 400 "Student is not signed up for this activity"),
     (unregister "Chess Club" "ann@mergington.edu" two_store).2).
Proof.
  apply (unregister_twice_conflict "Chess Club" "ann@mergington.edu" two_store
           "Unregistered ann@mergington.edu from Chess Club").
  - apply (bool_decide_unpack _). vm_compute. reflexivity.
  - vm_compute. reflexivity.
Defined.

Lemma listing_count_ext st st' acts (result : gmap string Info.t) :
  (∀ x, participation_count x st = participation_count x st') →
  listing st acts result = listing st' acts result.
Proof.
  intros Hcount. revert result. induction acts as [|a acts IH]; intros result; [done|].
  rewrite !listing_cons, IH. unfold info_of. by rewrite Hcount.
Qed.

(** X12: on a store that meets the schema constraints, with no pair
    enrolled twice and no activity over capacity, a [signup] with the
    arguments of a successful [unregister] succeeds (the place that was freed
    is available, the student is known), and the listing, the students and
    the activities are then what they were before the unregister. *)
Theorem unregister_signup_round_trip n e st m1 st1 :
  schema_ok st → pairs_unique st → capacity_ok st →
  unregister n e st = (inr m1, st1) →
  ∃ m2 st2,
    signup n e st1 = (inr m2, st2) ∧
    listActivities st2 = listActivities st ∧
    students st2 = students st ∧
    activities st2 = activities st.
Proof.
  intros Hok Hnd Hcap (a & s & p & Ha & Hs & Hp & _ & ->)%unregister_success_inv.
  assert (NoDup (Participation.id <$> participations st)) as Hpk by apply Hok.
  pose proof (participation_of_after_delete _ _ p st Hnd Hp) as Hnone.
  destruct (participation_of_Some _ _ _ _ Hp) as (Hin & _ & Hpa).
  pose proof (participation_count_delete_exact (Activity.id a) p st Hpk Hin) as Hdec.
  rewrite decide_True in Hdec by done.
  destruct (activity_by_name_Some _ _ _ Ha) as [Hain _].
  unfold capacity_ok in Hcap. rewrite Forall_forall in Hcap. specialize (Hcap a Hain).
  rewrite signup_eq.
  change (activity_by_name n (delete_participation p st)) with (activity_by_name n st).
  rewrite Ha.
  rewrite (resolve_student_found e (delete_participation p st) s) by done.
  rewrite Hnone, decide_False by lia.
  eexists _, _. split; [reflexivity|]. split_and!; [|done..].
  rewrite !listActivities_eq. cbn [activities with_participation delete_participation].
  apply listing_count_ext. intros x.
  rewrite participation_count_with_participation.
  rewrite <- (participation_count_delete_exact x p st Hpk Hin).
  by rewrite Hpa.
Qed.

Lemma unregister_signup_round_trip_witness :
  ∃ m2 st2,
    signup "Chess Club" "ann@mergington.edu"
      (unregister "Chess Club" "ann@mergington.edu" two_store).2 = (inr m2, st2) ∧
    listActivities st2 = listActivities two_store ∧
    students st2 = students two_store ∧
    activities st2 = activities two_store.
Proof.
  apply (unregister_signup_round_trip "Chess Club" "ann@mergington.edu" two_store
           "Unregistered ann@mergington.edu from Chess Club").
  - apply (bool_decide_unpack _). vm_compute. reflexivity.
  - apply (bool_decide_unpack _). vm_compute. reflexivity.
  - apply (bool_decide_unpack _). vm_compute. reflexivity.
  - vm_compute. reflexivity.
Defined.

(** ** The bootstrap *)

(** X13: [init_db] never raises, on any store: it prints one of its two
    lines, leaves the students and participations tables exactly as they
    were (the enrollment loop writes nothing, its lookups running before the
    pending activities are flushed), and leaves a non-empty activities
    table, which on a store without activities is the catalog of nine. *)
Theorem init_db_writes_activities_only st :
  (∃ line, init_db st = (inr line, initialize st) ∧
           (line = "Database already initialized"
            ∨ line = "Database initialized with sample data")) ∧
  students (initialize st) = students st ∧
  participations (initialize st) = participations st ∧
  activities (initialize st) ≠ [] ∧
  (activities st = [] → activities (initialize st) = seeded_activities
                        ∧ length (activities (initialize st)) = 9).
Proof.
  destruct (initialize_tables st) as (Hstud & Hparts & _).
  split_and!; try done; unfold initialize.
  - destruct (activities st) as [|a acts] eqn:Hacts.
    + rewrite init_db_fresh by done. eexists. split; [done|by right].
    + rewrite init_db_initialized by (by rewrite Hacts). eexists. split; [done|by left].
  - destruct (activities st) as [|a acts] eqn:Hacts.
    + by rewrite init_db_fresh.
    + rewrite init_db_initialized; cbn [snd]; by rewrite Hacts.
  - intros Hacts. by rewrite init_db_fresh.
Qed.

Lemma init_db_writes_activities_only_witness :
  activities (initialize (mkStore (students two_store) [] [] 7)) = seeded_activities
  ∧ length (activities (initialize (mkStore (students two_store) [] [] 7))) = 9.
Proof.
  apply (init_db_writes_activities_only (mkStore (students two_store) [] [] 7)).
  reflexivity.
Defined.

(** ** Rowids of participations *)

Lemma fresh_ids_call c st p :
  participations_seq st ≤ participations_seq (call c st) ∧
  (p ∈ participations (call c st) →
   p ∈ participations st ∨ participations_seq st < Participation.id p).
Proof.
  destruct c as [| |n e|n e]; cbn [call].
  - destruct (initialize_tables st) as (_ & -> & ->). by split; [|left].
  - rewrite get_activities_eq. by split; [|left].
  - destruct (signup n e st) as [[exn|msg] st'] eqn:Hrun; cbn [snd].
    + rewrite (signup_failure_store n e st exn st' Hrun). by split; [|left].
    + apply signup_success_inv in Hrun as (a & _ & _ & _ & _ & ->).
      destruct (resolve_student_tables e st) as (_ & Hparts & Hseq & _).
      cbn [participations participations_seq with_participation].
      rewrite Hparts, Hseq. split; [lia|].
      intros [Hp|Hnew%list_elem_of_singleton]%elem_of_app; [by left|].
      right. rewrite Hnew. cbn [Participation.id]. lia.
  - destruct (unregister n e st) as [[exn|msg] st'] eqn:Hrun; cbn [snd].
    + rewrite (unregister_failure_store n e st exn st' Hrun). by split; [|left].
    + apply unregister_success_inv in Hrun as (a & s & q & _ & _ & _ & _ & ->).
      cbn [participations participations_seq delete_participation].
      split; [done|]. intros [_ Hp]%list_elem_of_filter. by left.
Qed.

Lemma seq_ok_call c st : seq_ok st → seq_ok (call c st).
Proof.
  unfold seq_ok. intros Hseq. destruct c as [| |n e|n e]; cbn [call].
  - by destruct (initialize_tables st) as (_ & -> & ->).
  - by rewrite get_activities_eq.
  - destruct (signup n e st) as [[exn|msg] st'] eqn:Hrun; cbn [snd].
    + by rewrite (signup_failure_store n e st exn st' Hrun).
    + apply signup_success_inv in Hrun as (a & _ & _ & _ & _ & ->).
      destruct (resolve_student_tables e st) as (_ & Hparts & Hs & _).
      cbn [participations participations_seq with_participation].
      rewrite Hparts, Hs. apply Forall_app. split.
      * eapply Forall_impl; [exact Hseq|]. cbn beta. intros q Hq. lia.
      * apply Forall_singleton. cbn [Participation.id]. lia.
  - destruct (unregister n e st) as [[exn|msg] st'] eqn:Hrun; cbn [snd].
    + by rewrite (unregister_failure_store n e st exn st' Hrun).
    + apply unregister_success_inv in Hrun as (a & s & q & _ & _ & _ & _ & ->).
      cbn [participations participations_seq delete_participation].
      rewrite Forall_forall in Hseq |- *.
      intros r [_ Hr]%list_elem_of_filter. by apply Hseq.
Qed.

Lemma seq_ok_calls cs st : seq_ok st → seq_ok (calls cs st).
Proof.
  revert st. induction cs as [|c cs IH]; intros st Hst; [done|].
  apply IH. by apply seq_ok_call.
Qed.

(** X14: rowids of participations are never handed out again.  From a store
    whose AUTOINCREMENT sequence is at least every rowid in the table, the
    same holds after any sequence of calls, and every participation row then
    present is either a row the store had at the start or carries an id
    above the sequence value of the start, so above every id in use or
    given out before, rows deleted in between included. *)
Theorem participation_ids_never_reused cs st :
  seq_ok st →
  seq_ok (calls cs st) ∧
  ∀ p, p ∈ participations (calls cs st) →
       p ∈ participations st ∨ participations_seq st < Participation.id p.
Proof.
  intros Hseq. split; [by apply seq_ok_calls|]. clear Hseq.
  revert st. induction cs as [|c cs IH]; intros st p; [by left|].
  cbn [calls foldl]. intros [Hp|Hlt]%IH.
  - by apply (fresh_ids_call c st p).
  - right. pose proof (proj1 (fresh_ids_call c st p)). lia.
Qed.

Lemma participation_ids_never_reused_witness :
  Participation.mk 8 1 1 ∈ participations two_store
  ∨ participations_seq two_store < Participation.id (Participation.mk 8 1 1).
Proof.
  assert (seq_ok two_store) as Hseq
    by (apply (bool_decide_unpack _); vm_compute; reflexivity).
  apply (proj2 (participation_ids_never_reused
                  [CallUnregister "Chess Club" "ann@mergington.edu";
                   CallSignup "Chess Club" "ann@mergington.edu"] two_store Hseq)).
  apply (bool_decide_unpack _). vm_compute. reflexivity.
Defined.

(** ** Every state the service reaches *)

Lemma running_store_calls cs st :
  schema_ok st ∧ capacity_ok st ∧ pairs_unique st ∧ seq_ok st →
  schema_ok (calls cs st) ∧ capacity_ok (calls cs st) ∧
  pairs_unique (calls cs st) ∧ seq_ok (calls cs st).
Proof.
  revert st. induction cs as [|c cs IH]; intros st (Hok & Hcap & Hnd & Hseq); [done|].
  apply IH. destruct (service_ok_call c st (conj Hok Hcap)) as [Hok' Hcap'].
  split_and!; [done..|by apply pairs_unique_call|by apply seq_ok_call].
Qed.

(** X15: every store the service can reach from an empty database, by any
    sequence of bootstrap, list, signup and unregister calls, meets the
    schema constraints, has no activity over capacity, no pair enrolled
    twice, and a sequence value at least every participation rowid. *)
Theorem reachable_store_ok cs :
  schema_ok (calls cs empty_store) ∧ capacity_ok (calls cs empty_store) ∧
  pairs_unique (calls cs empty_store) ∧ seq_ok (calls cs empty_store).
Proof.
  apply running_store_calls.
  split_and!; [apply schema_ok_empty|constructor..].
Qed.
